(** * Killer Queen 3D: the authoritative game server (server/src/index.ts)

    A shallow embedding of the socket.io server: the shared [GameState], the
    per-connection data ([hasJoined], [socket.data.playerId]), the pending
    [setTimeout] closures and every event handler, followed by the
    properties of the session core.

    Modelling conventions.
    - [gameState.players] is a [Record<string, Player>]: a plain object whose
      own properties are the roster entries, kept in a [gmap string Player].
      The expression [gameState.players[id]] is a property lookup along the
      prototype chain: it finds the roster entry when [id] is an own key, and
      otherwise whatever [Object.prototype] holds under that name
      ([lookup_player]).  What the handlers write through such a lookup lands
      outside the [GameState] and is kept in the world ([inherited]).
    - JS numbers that the server only counts with (scores, berries, the snail
      position) are integers and are modelled in [Z]; the three components of
      a position or rotation are only stored and forwarded, never computed
      with, and are carried as [Z] as well.
    - [uuidv4()] and the socket ids are inputs: an event carries the id the
      generator returns if the handler asks for one.
    - Each handler runs to completion (one event at a time); it maps a
      [World] to the next [World] and the list of messages it emits, in
      order.  A [setTimeout] adds a pending closure to the world; the event
      [TimerFires k] runs it.  The wall-clock delay is kept as data
      ([timer_delay]); the order in which unrelated events interleave is left
      to the trace.
    - The file is an ES module, hence strict code: an assignment to a property
      of a primitive value throws a [TypeError].  No handler catches it and
      the process ends; [throws] says when, and [run] stops there. *)

From stdpp Require Import gmap strings list fin_maps.
From Stdlib Require Import ZArith.

Local Open Scope Z_scope.

(** ** Data model *)

Inductive Team := blue | gold.
Inductive Role := queen | worker | soldier.
Inductive Status := waiting | starting | playing | ended.
Inductive Reason := economic | military | snail.

#[global] Instance Team_eq_dec : EqDecision Team.
Proof. solve_decision. Defined.
#[global] Instance Role_eq_dec : EqDecision Role.
Proof. solve_decision. Defined.
#[global] Instance Status_eq_dec : EqDecision Status.
Proof. solve_decision. Defined.
#[global] Instance Reason_eq_dec : EqDecision Reason.
Proof. solve_decision. Defined.

Definition Vec3 : Type := Z * Z * Z.

Record Player := mkPlayer {
  id : string;
  position : Vec3;
  rotation : Vec3;
  team : Team;
  role : Role;
  isActive : bool
}.

Record BerryCount := mkBerryCount {
  berry_blue : Z;
  berry_gold : Z
}.

Record GameState := mkGameState {
  status : Status;
  players : gmap string Player;
  blueScore : Z;
  goldScore : Z;
  blueQueenAlive : bool;
  goldQueenAlive : bool;
  snailPosition : Z;
  berryCount : BerryCount
}.

Definition initialGameState : GameState :=
  {| status := waiting;
     players := ∅;
     blueScore := 0;
     goldScore := 0;
     blueQueenAlive := true;
     goldQueenAlive := true;
     snailPosition := 50;
     berryCount := {| berry_blue := 0; berry_gold := 0 |} |}.

(** [gameState.berryCount[team]] and [gameState.berryCount[team]++]. *)
Definition berry_get (t : Team) (b : BerryCount) : Z :=
  match t with blue => berry_blue b | gold => berry_gold b end.

Definition berry_incr (t : Team) (b : BerryCount) : BerryCount :=
  match t with
  | blue => {| berry_blue := berry_blue b + 1; berry_gold := berry_gold b |}
  | gold => {| berry_blue := berry_blue b; berry_gold := berry_gold b + 1 |}
  end.

(** Field updates of the shared state, one per assignment form in the code. *)
Definition set_status (st : Status) (g : GameState) : GameState :=
  {| status := st; players := players g;
     blueScore := blueScore g; goldScore := goldScore g;
     blueQueenAlive := blueQueenAlive g; goldQueenAlive := goldQueenAlive g;
     snailPosition := snailPosition g; berryCount := berryCount g |}.

Definition set_players (m : gmap string Player) (g : GameState) : GameState :=
  {| status := status g; players := m;
     blueScore := blueScore g; goldScore := goldScore g;
     blueQueenAlive := blueQueenAlive g; goldQueenAlive := goldQueenAlive g;
     snailPosition := snailPosition g; berryCount := berryCount g |}.

Definition set_blueScore (n : Z) (g : GameState) : GameState :=
  {| status := status g; players := players g;
     blueScore := n; goldScore := goldScore g;
     blueQueenAlive := blueQueenAlive g; goldQueenAlive := goldQueenAlive g;
     snailPosition := snailPosition g; berryCount := berryCount g |}.

Definition set_goldScore (n : Z) (g : GameState) : GameState :=
  {| status := status g; players := players g;
     blueScore := blueScore g; goldScore := n;
     blueQueenAlive := blueQueenAlive g; goldQueenAlive := goldQueenAlive g;
     snailPosition := snailPosition g; berryCount := berryCount g |}.

Definition set_blueQueenAlive (b : bool) (g : GameState) : GameState :=
  {| status := status g; players := players g;
     blueScore := blueScore g; goldScore := goldScore g;
     blueQueenAlive := b; goldQueenAlive := goldQueenAlive g;
     snailPosition := snailPosition g; berryCount := berryCount g |}.

Definition set_goldQueenAlive (b : bool) (g : GameState) : GameState :=
  {| status := status g; players := players g;
     blueScore := blueScore g; goldScore := goldScore g;
     blueQueenAlive := blueQueenAlive g; goldQueenAlive := b;
     snailPosition := snailPosition g; berryCount := berryCount g |}.

Definition set_snailPosition (n : Z) (g : GameState) : GameState :=
  {| status := status g; players := players g;
     blueScore := blueScore g; goldScore := goldScore g;
     blueQueenAlive := blueQueenAlive g; goldQueenAlive := goldQueenAlive g;
     snailPosition := n; berryCount := berryCount g |}.

Definition set_berryCount (b : BerryCount) (g : GameState) : GameState :=
  {| status := status g; players := players g;
     blueScore := blueScore g; goldScore := goldScore g;
     blueQueenAlive := blueQueenAlive g; goldQueenAlive := goldQueenAlive g;
     snailPosition := snailPosition g; berryCount := b |}.

Definition set_isActive (b : bool) (p : Player) : Player :=
  {| id := id p; position := position p; rotation := rotation p;
     team := team p; role := role p; isActive := b |}.

Definition set_pose (pos rot : Vec3) (p : Player) : Player :=
  {| id := id p; position := pos; rotation := rot;
     team := team p; role := role p; isActive := isActive p |}.

(** ** Team and role assignment *)

(** [Object.values(players)] and [Object.keys(players)]. *)
Definition values (m : gmap string Player) : list Player := (map_to_list m).*2.
Definition keys (m : gmap string Player) : list string := (map_to_list m).*1.

Definition on_team (t : Team) (l : list Player) : list Player :=
  filter (λ p, team p = t) l.

Definition with_role (r : Role) (l : list Player) : list Player :=
  filter (λ p, role p = r) l.

Definition some_queen (l : list Player) : bool :=
  existsb (λ p, bool_decide (role p = queen)) l.

Definition assignTeamAndRole (m : gmap string Player) : Team * Role :=
  let blueCount := length (on_team blue (values m)) in
  let goldCount := length (on_team gold (values m)) in
  let t := if bool_decide (blueCount ≤ goldCount)%nat then blue else gold in
  let teamPlayers := on_team t (values m) in
  if bool_decide (length teamPlayers = 0%nat) then (t, queen)
  else
    let hasQueen := some_queen teamPlayers in
    if negb hasQueen then (t, queen)
    else
      let workerCount := length (with_role worker teamPlayers) in
      let soldierCount := length (with_role soldier teamPlayers) in
      (t, if bool_decide (workerCount ≤ soldierCount)%nat then worker else soldier).

(** ** Connections, timers, messages *)

Definition SocketId : Type := string.

(** Per-connection state: the closure variable [hasJoined] and
    [socket.data.playerId] ([None] is [undefined]); [connected] becomes false
    once the transport has closed. *)
Record Conn := mkConn {
  hasJoined : bool;
  playerId : option string;
  connected : bool
}.

(** JS truthiness of a [string | undefined]: the empty string is falsy. *)
Definition truthy (o : option string) : bool :=
  match o with
  | Some s => negb (bool_decide (s = ""%string))
  | None => false
  end.

(** The three [setTimeout] closures, with the variables they capture. *)
Inductive Timer :=
  | RespawnQueen (targetTeam : Team)
  | DisconnectSweep (pid : string)
  | LeaveSweep (s : SocketId) (pid : string).

Definition timer_delay (t : Timer) : Z :=
  match t with
  | RespawnQueen _ => 5000
  | DisconnectSweep _ => 30000
  | LeaveSweep _ _ => 1000
  end.

Inductive Msg :=
  | playerAssigned (pid : string) (t : Team) (r : Role)
  | gameStateMsg (g : GameState)
  | gameOver (winner : Team) (reason : Reason)
  | playerPositionUpdate (pid : string) (pos rot : Vec3).

(** [socket.emit], [io.emit], [socket.broadcast.emit]. *)
Inductive Audience :=
  | ToSocket (s : SocketId)
  | ToAll
  | ToOthers (s : SocketId).

Definition Emission : Type := Audience * Msg.

(** Own properties that a handler can add to an object which is not a roster
    entry ([None]: the property was never assigned). *)
Record Props := mkProps {
  own_position : option Vec3;
  own_rotation : option Vec3;
  own_isActive : option bool
}.

Definition no_props : Props :=
  {| own_position := None; own_rotation := None; own_isActive := None |}.

(** [inherited] holds what the handlers have written outside the roster,
    filed under the name by which [gameState.players[name]] reaches the
    object: ["__proto__"] for [Object.prototype] itself, the other
    [prototype_names] for its built-in functions, and ["position"] and
    ["rotation"] for the arrays that [Object.prototype.position] and
    [Object.prototype.rotation] currently hold. *)
Record World := mkWorld {
  gameState : GameState;
  conns : gmap SocketId Conn;
  timers : gmap nat Timer;
  nextTimer : nat;
  inherited : gmap string Props
}.

Definition initialWorld : World :=
  {| gameState := initialGameState; conns := ∅; timers := ∅; nextTimer := 0;
     inherited := ∅ |}.

Definition set_gameState (g : GameState) (w : World) : World :=
  {| gameState := g; conns := conns w; timers := timers w;
     nextTimer := nextTimer w; inherited := inherited w |}.

Definition set_conn (s : SocketId) (c : Conn) (w : World) : World :=
  {| gameState := gameState w; conns := <[s := c]> (conns w);
     timers := timers w; nextTimer := nextTimer w; inherited := inherited w |}.

(** [setTimeout(closure, timer_delay closure)]. *)
Definition setTimeout (t : Timer) (w : World) : World :=
  {| gameState := gameState w; conns := conns w;
     timers := <[nextTimer w := t]> (timers w); nextTimer := S (nextTimer w);
     inherited := inherited w |}.

Definition clearFired (k : nat) (w : World) : World :=
  {| gameState := gameState w; conns := conns w;
     timers := delete k (timers w); nextTimer := nextTimer w;
     inherited := inherited w |}.

Definition set_inherited (h : gmap string Props) (w : World) : World :=
  {| gameState := gameState w; conns := conns w; timers := timers w;
     nextTimer := nextTimer w; inherited := h |}.

(** ** Property lookup on the roster object *)

(** The own property names of [Object.prototype]: eleven functions and the
    accessor [__proto__], which evaluates to [Object.prototype] itself. *)
Definition prototype_names : list string :=
  [ "constructor"; "__defineGetter__"; "__defineSetter__"; "hasOwnProperty";
    "__lookupGetter__"; "__lookupSetter__"; "isPrototypeOf";
    "propertyIsEnumerable"; "toString"; "valueOf"; "__proto__";
    "toLocaleString" ]%string.

Definition props (w : World) (k : string) : Props :=
  default no_props (inherited w !! k).

(** The properties the handlers have added to [Object.prototype]; every
    object inherits them. *)
Definition objectPrototype (w : World) : Props := props w "__proto__".

(** What [gameState.players[k]] evaluates to when it is truthy: a roster
    entry; an object that the roster object inherits ([Object.prototype], one
    of its functions, or an array stored on it); or the primitive [true]. *)
Inductive Found :=
  | Entry (p : Player)
  | Inherited
  | InheritedTrue.

(** [gameState.players[k]]: the own property if there is one; otherwise the
    property of [Object.prototype]: a built-in, or one of [position],
    [rotation] (an array, once assigned) and [isActive] (a boolean, truthy
    when [true]).  [None] is a falsy result. *)
Definition lookup_player (w : World) (k : string) : option Found :=
  match players (gameState w) !! k with
  | Some p => Some (Entry p)
  | None =>
      if bool_decide (k ∈ prototype_names) then Some Inherited
      else if bool_decide (k = "position"%string) then
        match own_position (objectPrototype w) with
        | Some _ => Some Inherited
        | None => None
        end
      else if bool_decide (k = "rotation"%string) then
        match own_rotation (objectPrototype w) with
        | Some _ => Some Inherited
        | None => None
        end
      else if bool_decide (k = "isActive"%string) then
        match own_isActive (objectPrototype w) with
        | Some true => Some InheritedTrue
        | _ => None
        end
      else None
  end.

(** [gameState.players[k].position = pos; gameState.players[k].rotation = rot]
    on an inherited object.  When the object is [Object.prototype], the two
    arrays are from now on what the names [position] and [rotation] find:
    new objects, with nothing added to them yet. *)
Definition store_pose (k : string) (pos rot : Vec3) (w : World) : World :=
  let h := <[k := {| own_position := Some pos; own_rotation := Some rot;
                     own_isActive := own_isActive (props w k) |}]> (inherited w) in
  set_inherited
    (if bool_decide (k = "__proto__"%string)
     then delete "position"%string (delete "rotation"%string h) else h) w.

(** [gameState.players[k].isActive = b] on an inherited object. *)
Definition store_isActive (k : string) (b : bool) (w : World) : World :=
  set_inherited
    (<[k := {| own_position := own_position (props w k);
               own_rotation := own_rotation (props w k);
               own_isActive := Some b |}]> (inherited w)) w.

(** [gameState.players[k].isActive] read from an inherited object: its own
    property, else the one of [Object.prototype]; [undefined] is falsy. *)
Definition read_isActive (w : World) (k : string) : bool :=
  match own_isActive (props w k) with
  | Some b => b
  | None => default false (own_isActive (objectPrototype w))
  end.

(** ** Event handlers *)

Definition Result : Type := World * list Emission.

(** The guard shared by the gameplay handlers:
    [const playerId = socket.data.playerId;
     if (playerId && gameState.players[playerId])].
    When it holds, the id and what the lookup found. *)
Definition bound_player (c : Conn) (w : World) : option (string * Found) :=
  match playerId c with
  | Some pid =>
      if truthy (Some pid) then
        match lookup_player w pid with
        | Some v => Some (pid, v)
        | None => None
        end
      else None
  | None => None
  end.

Definition spawn (t : Team) : Vec3 :=
  match t with blue => (-15, 5, 0) | gold => (15, 5, 0) end.

(** [if (gameState.status === 'waiting' &&
         Object.keys(gameState.players).length >= 2)
       gameState.status = 'playing']. *)
Definition start_if_ready (g : GameState) : GameState :=
  if bool_decide (status g = waiting)
     && bool_decide (2 ≤ length (keys (players g)))%nat
  then set_status playing g else g.

(** [io.on('connection')]: a new socket starts with [hasJoined = false] and
    empty [socket.data].  socket.io never hands out an id twice. *)
Definition connection (s : SocketId) (w : World) : Result :=
  match conns w !! s with
  | None => (set_conn s {| hasJoined := false; playerId := None; connected := true |} w, [])
  | Some _ => (w, [])
  end.

Definition joinGame (s : SocketId) (uuid : string) (w : World) (c : Conn) : Result :=
  if hasJoined c || truthy (playerId c) then (w, [])
  else
    let g := gameState w in
    let tr := assignTeamAndRole (players g) in
    let newPlayer :=
      {| id := uuid; position := spawn tr.1; rotation := (0, 0, 0);
         team := tr.1; role := tr.2; isActive := true |} in
    let g1 := start_if_ready (set_players (<[uuid := newPlayer]> (players g)) g) in
    (set_conn s {| hasJoined := true; playerId := Some uuid; connected := connected c |}
       (set_gameState g1 w),
     [(ToSocket s, playerAssigned uuid tr.1 tr.2); (ToAll, gameStateMsg g1)]).

(** On an inherited object the two assignments land on that object and the
    update is broadcast under the id all the same; on the primitive [true]
    the first assignment throws. *)
Definition playerUpdate (s : SocketId) (pos rot : Vec3) (w : World) (c : Conn) : Result :=
  let g := gameState w in
  match bound_player c w with
  | Some (pid, Entry _) =>
      (set_gameState (set_players (alter (set_pose pos rot) pid (players g)) g) w,
       [(ToOthers s, playerPositionUpdate pid pos rot)])
  | Some (pid, Inherited) =>
      (store_pose pid pos rot w, [(ToOthers s, playerPositionUpdate pid pos rot)])
  | Some (_, InheritedTrue) => (w, [])
  | None => (w, [])
  end.

(** An inherited value has no [role]: [player.role === 'worker'] is false. *)
Definition collectBerry (w : World) (c : Conn) : Result :=
  let g := gameState w in
  match bound_player c w with
  | Some (_, Entry player) =>
      if bool_decide (role player = worker) then
        let g1 := set_berryCount (berry_incr (team player) (berryCount g)) g in
        if bool_decide (12 ≤ berry_get (team player) (berryCount g1)) then
          let g2 := set_status ended g1 in
          (set_gameState g2 w,
           [(ToAll, gameOver (team player) economic); (ToAll, gameStateMsg g2)])
        else (set_gameState g1 w, [(ToAll, gameStateMsg g1)])
      else (w, [])
  | _ => (w, [])
  end.

Definition moveSnail (w : World) (c : Conn) : Result :=
  let g := gameState w in
  match bound_player c w with
  | Some (_, Entry player) =>
      if bool_decide (role player = worker) then
        let direction := match team player with blue => 1 | gold => -1 end in
        let g1 := set_snailPosition
                    (Z.min 100 (Z.max 0 (snailPosition g + direction))) g in
        if bool_decide (100 ≤ snailPosition g1) then
          let g2 := set_status ended g1 in
          (set_gameState g2 w,
           [(ToAll, gameOver blue snail); (ToAll, gameStateMsg g2)])
        else if bool_decide (snailPosition g1 ≤ 0) then
          let g2 := set_status ended g1 in
          (set_gameState g2 w,
           [(ToAll, gameOver gold snail); (ToAll, gameStateMsg g2)])
        else (set_gameState g1 w, [(ToAll, gameStateMsg g1)])
      else (w, [])
  | _ => (w, [])
  end.

Definition opponent (t : Team) : Team :=
  match t with blue => gold | gold => blue end.

Definition attackQueen (w : World) (c : Conn) : Result :=
  let g := gameState w in
  match bound_player c w with
  | Some (_, Entry player) =>
      if bool_decide (role player = soldier) then
        let targetTeam := opponent (team player) in
        let g1 :=
          match targetTeam with
          | blue => set_goldScore (goldScore g + 1) (set_blueQueenAlive false g)
          | gold => set_blueScore (blueScore g + 1) (set_goldQueenAlive false g)
          end in
        let w1 g' := setTimeout (RespawnQueen targetTeam) (set_gameState g' w) in
        if bool_decide (3 ≤ blueScore g1) then
          let g2 := set_status ended g1 in
          (w1 g2, [(ToAll, gameOver blue military); (ToAll, gameStateMsg g2)])
        else if bool_decide (3 ≤ goldScore g1) then
          let g2 := set_status ended g1 in
          (w1 g2, [(ToAll, gameOver gold military); (ToAll, gameStateMsg g2)])
        else (w1 g1, [(ToAll, gameStateMsg g1)])
      else (w, [])
  | _ => (w, [])
  end.

(** The ['disconnect'] handler, after which the socket is gone.  On an
    inherited object the flag lands on that object; the state is broadcast
    and the sweep scheduled all the same.  On the primitive [true] the
    assignment throws. *)
Definition disconnect (s : SocketId) (w : World) (c : Conn) : Result :=
  let g := gameState w in
  let closed := {| hasJoined := hasJoined c; playerId := playerId c; connected := false |} in
  match bound_player c w with
  | Some (pid, Entry _) =>
      let g1 := set_players (alter (set_isActive false) pid (players g)) g in
      (set_conn s closed (setTimeout (DisconnectSweep pid) (set_gameState g1 w)),
       [(ToAll, gameStateMsg g1)])
  | Some (pid, Inherited) =>
      (set_conn s closed (setTimeout (DisconnectSweep pid) (store_isActive pid false w)),
       [(ToAll, gameStateMsg g)])
  | Some (_, InheritedTrue) => (set_conn s closed w, [])
  | None => (set_conn s closed w, [])
  end.

Definition leaveGame (s : SocketId) (w : World) (c : Conn) : Result :=
  let g := gameState w in
  match bound_player c w with
  | Some (pid, Entry _) =>
      let g1 := set_players (alter (set_isActive false) pid (players g)) g in
      (setTimeout (LeaveSweep s pid) (set_gameState g1 w),
       [(ToAll, gameStateMsg g1)])
  | Some (pid, Inherited) =>
      (setTimeout (LeaveSweep s pid) (store_isActive pid false w),
       [(ToAll, gameStateMsg g)])
  | Some (_, InheritedTrue) => (w, [])
  | None => (w, [])
  end.

(** The existing-id branch is taken whenever the lookup is truthy: for a
    roster entry, and for an inherited value, to which the socket is bound as
    if it were a player (on the primitive [true] the assignment of
    [isActive] then throws, after the binding). *)
Definition reconnectPlayer (s : SocketId) (pid uuid : string) (w : World) (c : Conn) : Result :=
  let g := gameState w in
  let rebound := {| hasJoined := true; playerId := Some pid; connected := connected c |} in
  match (if truthy (Some pid) then lookup_player w pid else None) with
  | Some (Entry _) =>
      let g1 := set_players (alter (set_isActive true) pid (players g)) g in
      (set_conn s rebound (set_gameState g1 w),
       [(ToSocket s, gameStateMsg g1); (ToAll, gameStateMsg g1)])
  | Some Inherited =>
      (set_conn s rebound (store_isActive pid true w),
       [(ToSocket s, gameStateMsg g); (ToAll, gameStateMsg g)])
  | Some InheritedTrue => (set_conn s rebound w, [])
  | None =>
      let tr := assignTeamAndRole (players g) in
      let newPlayer :=
        {| id := uuid; position := spawn tr.1; rotation := (0, 0, 0);
           team := tr.1; role := tr.2; isActive := true |} in
      let g1 := start_if_ready (set_players (<[uuid := newPlayer]> (players g)) g) in
      (set_conn s {| hasJoined := true; playerId := Some uuid; connected := connected c |}
         (set_gameState g1 w),
       [(ToSocket s, playerAssigned uuid tr.1 tr.2); (ToAll, gameStateMsg g1)])
  end.

(** Running a pending [setTimeout] closure; it is removed first (one shot).
    [delete gameState.players[playerId]] removes an own property and does
    nothing otherwise; the sweeps test the lookup for truthiness, so on an
    inherited value they go on without deleting anything. *)
Definition fireTimer (k : nat) (w : World) : Result :=
  match timers w !! k with
  | None => (w, [])
  | Some t =>
      let w0 := clearFired k w in
      let g := gameState w in
      match t with
      | RespawnQueen targetTeam =>
          let g1 := match targetTeam with
                    | blue => set_blueQueenAlive true g
                    | gold => set_goldQueenAlive true g
                    end in
          (set_gameState g1 w0, [(ToAll, gameStateMsg g1)])
      | DisconnectSweep pid =>
          match lookup_player w pid with
          | Some (Entry p) =>
              if negb (isActive p) then
                let g1 := set_players (delete pid (players g)) g in
                (set_gameState g1 w0, [(ToAll, gameStateMsg g1)])
              else (w0, [])
          | Some Inherited =>
              if negb (read_isActive w pid) then (w0, [(ToAll, gameStateMsg g)])
              else (w0, [])
          | Some InheritedTrue => (w0, [])
          | None => (w0, [])
          end
      | LeaveSweep s pid =>
          match lookup_player w pid with
          | Some _ =>
              let g1 := set_players (delete pid (players g)) g in
              let cleared c := {| hasJoined := false; playerId := None;
                                  connected := connected c |} in
              ({| gameState := g1; conns := alter cleared s (conns w0);
                  timers := timers w0; nextTimer := nextTimer w0;
                  inherited := inherited w0 |},
               [(ToAll, gameStateMsg g1)])
          | None => (w0, [])
          end
      end
  end.

(** [resetGame] under the [setInterval] guard.  The new state is a new
    object; what was written to [Object.prototype] stays. *)
Definition idleTick (w : World) : Result :=
  if bool_decide (status (gameState w) = ended) then
    (set_gameState initialGameState w, [(ToAll, gameStateMsg initialGameState)])
  else (w, []).

Inductive Event :=
  | Connection (s : SocketId)
  | JoinGame (s : SocketId) (uuid : string)
  | PlayerUpdate (s : SocketId) (pos rot : Vec3)
  | CollectBerry (s : SocketId)
  | MoveSnail (s : SocketId)
  | AttackQueen (s : SocketId)
  | Disconnect (s : SocketId)
  | LeaveGame (s : SocketId)
  | ReconnectPlayer (s : SocketId) (pid uuid : string)
  | TimerFires (k : nat)
  | IdleTick.

(** Only a connected socket delivers events. *)
Definition on_socket (s : SocketId) (w : World) (h : Conn → Result) : Result :=
  match conns w !! s with
  | Some c => if connected c then h c else (w, [])
  | None => (w, [])
  end.

Definition handle (e : Event) (w : World) : Result :=
  match e with
  | Connection s => connection s w
  | JoinGame s uuid => on_socket s w (joinGame s uuid w)
  | PlayerUpdate s pos rot => on_socket s w (playerUpdate s pos rot w)
  | CollectBerry s => on_socket s w (collectBerry w)
  | MoveSnail s => on_socket s w (moveSnail w)
  | AttackQueen s => on_socket s w (attackQueen w)
  | Disconnect s => on_socket s w (disconnect s w)
  | LeaveGame s => on_socket s w (leaveGame s w)
  | ReconnectPlayer s pid uuid => on_socket s w (reconnectPlayer s pid uuid w)
  | TimerFires k => fireTimer k w
  | IdleTick => idleTick w
  end.

(** The handler assigns to a property of the primitive [true]: [handle] gives
    the world as the handler leaves it when the [TypeError] is thrown. *)
Definition on_primitive (w : World) (c : Conn) : bool :=
  match bound_player c w with
  | Some (_, InheritedTrue) => true
  | _ => false
  end.

(** Handling [e] in [w] ends in that [TypeError]: in [playerUpdate],
    [disconnect] and [leaveGame] at the first assignment after the guard, in
    [reconnectPlayer] at the assignment of [isActive]. *)
Definition throws (e : Event) (w : World) : bool :=
  match e with
  | PlayerUpdate s _ _ | Disconnect s | LeaveGame s =>
      match conns w !! s with
      | Some c => connected c && on_primitive w c
      | None => false
      end
  | ReconnectPlayer s pid _ =>
      match conns w !! s with
      | Some c =>
          connected c
          && match (if truthy (Some pid) then lookup_player w pid else None) with
             | Some InheritedTrue => true
             | _ => false
             end
      | None => false
      end
  | _ => false
  end.

(** The events are handled in order, up to the first handler that throws. *)
Fixpoint run (evs : list Event) (w : World) : Result :=
  match evs with
  | [] => (w, [])
  | e :: evs' =>
      let r := handle e w in
      if throws e w then r
      else
        let r' := run evs' r.1 in
        (r'.1, r.2 ++ r'.2)
  end.

(** ** The id generator

    [uuidv4()] returns an id the server has not seen: not a roster key, not
    bound to a connection, not captured by a pending closure, and not the
    empty string.  It is a version-4 UUID, so that the assignment
    [gameState.players[id] = ...] creates an own property, as it does for
    every name but ["__proto__"]. *)
Definition timer_pid (t : Timer) : option string :=
  match t with
  | RespawnQueen _ => None
  | DisconnectSweep pid => Some pid
  | LeaveSweep _ pid => Some pid
  end.

Definition fresh_uuid (w : World) (u : string) : bool :=
  negb (bool_decide (u = ""%string))
  && bool_decide (players (gameState w) !! u = None)
  && forallb (λ sc, negb (bool_decide (playerId sc.2 = Some u))) (map_to_list (conns w))
  && forallb (λ kt, negb (bool_decide (timer_pid kt.2 = Some u))) (map_to_list (timers w)).

Definition event_uuid (e : Event) : option string :=
  match e with
  | JoinGame _ u => Some u
  | ReconnectPlayer _ _ u => Some u
  | _ => None
  end.

Definition fresh_event (w : World) (e : Event) : bool :=
  match event_uuid e with
  | Some u => fresh_uuid w u
  | None => true
  end.

(** A trace all of whose events satisfy [ok] in the world they arrive in;
    nothing arrives after a handler has thrown. *)
Fixpoint trace_ok (ok : World → Event → bool) (w : World) (evs : list Event) : bool :=
  match evs with
  | [] => true
  | e :: evs' => ok w e && (throws e w || trace_ok ok (handle e w).1 evs')
  end.

Definition fresh_trace : World → list Event → bool := trace_ok fresh_event.

(** ** Scenarios

    Concrete event sequences; the theorems below are evaluated on them. *)

Definition scenario_joins : list Event :=
  [ Connection "s1"; JoinGame "s1" "p1";
    Connection "s2"; JoinGame "s2" "p2";
    Connection "s3"; JoinGame "s3" "p3" ].

(** Six players join (queen, queen, worker, worker, soldier, soldier), the
    blue soldier kills three times, the gold soldier twice. *)
Definition six_joins : list Event :=
  [ Connection "s1"; JoinGame "s1" "p1"; Connection "s2"; JoinGame "s2" "p2";
    Connection "s3"; JoinGame "s3" "p3"; Connection "s4"; JoinGame "s4" "p4";
    Connection "s5"; JoinGame "s5" "p5"; Connection "s6"; JoinGame "s6" "p6" ].

Definition both_sides_killing : list Event :=
  six_joins ++ [ AttackQueen "s5"; AttackQueen "s5"; AttackQueen "s5";
                 AttackQueen "s6"; AttackQueen "s6" ].

(** A player joins and leaves; until the leave sweep fires the socket is
    still bound to the record, now inactive. *)
Definition join_then_leave : list Event :=
  [ Connection "s1"; JoinGame "s1" "p1"; LeaveGame "s1" ].

(** Three players join; the blue worker collects twelve berries. *)
Definition twelve_berries : list Event :=
  scenario_joins ++ replicate 12 (CollectBerry "s3").

(** A second connection presents the id of a player whose first connection
    is still open (the same stored id from a second browser tab). *)
Definition second_tab : list Event :=
  [ Connection "s1"; JoinGame "s1" "p1";
    Connection "s2"; ReconnectPlayer "s2" "p1" "p2" ].

(** A player drops, reconnects from a new socket with the stored id, and a
    stale id is presented by a third socket. *)
Definition drop_and_return : list Event :=
  [ Connection "s1"; JoinGame "s1" "p1"; Connection "s2"; JoinGame "s2" "p2";
    Disconnect "s1"; Connection "s3"; ReconnectPlayer "s3" "p1" "p3";
    LeaveGame "s2"; TimerFires 1; Connection "s4";
    ReconnectPlayer "s4" "p2" "p4"; TimerFires 0 ].

(** After the reset a newcomer joins and the stranded worker keeps trying. *)
Definition after_reset : list Event :=
  [ Connection "s4"; JoinGame "s4" "p4"; JoinGame "s3" "p5";
    CollectBerry "s3"; LeaveGame "s3" ].

(** The worker has won; a further connection presents a name that the
    roster object inherits. *)
Definition inherited_binding : list Event :=
  twelve_berries ++ [ Connection "s9"; ReconnectPlayer "s9" "__proto__" "p9" ].

(** The blue soldier has killed twice. *)
Definition third_kill_ahead : list Event :=
  six_joins ++ [ AttackQueen "s5"; AttackQueen "s5" ].

(** One player has joined; a second connection is open and has not. *)
Definition one_joined_one_idle : list Event :=
  [ Connection "s1"; JoinGame "s1" "p1"; Connection "s2" ].

(** The records of the players and connections in these scenarios. *)
Definition bound_conn (pid : string) : Conn :=
  {| hasJoined := true; playerId := Some pid; connected := true |}.

Definition fresh_conn : Conn :=
  {| hasJoined := false; playerId := None; connected := true |}.

Definition joined (pid : string) (t : Team) (r : Role) : Player :=
  {| id := pid; position := spawn t; rotation := (0, 0, 0);
     team := t; role := r; isActive := true |}.

(** ** Predicates used in the statements *)

(** The names under which the lookup can find something that is not a roster
    entry: those of [Object.prototype], and the three properties the
    handlers assign. *)
Definition reserved_names : list string :=
  prototype_names ++ [ "position"; "rotation"; "isActive" ]%string.

(** Socket [s] is connected and its [socket.data.playerId] is the roster key
    [pid] of player [p]. *)
Definition bound_to (w : World) (s : SocketId) (pid : string) (p : Player) : Prop :=
  ∃ c, conns w !! s = Some c ∧ connected c = true ∧ playerId c = Some pid
       ∧ pid ≠ ""%string ∧ players (gameState w) !! pid = Some p.

Definition score (t : Team) (g : GameState) : Z :=
  match t with blue => blueScore g | gold => goldScore g end.

Definition queenAlive (t : Team) (g : GameState) : bool :=
  match t with blue => blueQueenAlive g | gold => goldQueenAlive g end.

(** The [gameOver] messages among the emitted ones, in order. *)
Definition gameOvers (l : list Emission) : list (Team * Reason) :=
  omap (λ e, match e.2 with gameOver t r => Some (t, r) | _ => None end) l.

Definition team_size (t : Team) (m : gmap string Player) : nat :=
  length (on_team t (values m)).

Definition queens (t : Team) (m : gmap string Player) : nat :=
  length (with_role queen (on_team t (values m))).

(** Every team with a member has exactly one queen. *)
Definition one_queen_per_team (m : gmap string Player) : Prop :=
  ∀ t, (0 < team_size t m)%nat → queens t m = 1%nat.

Definition is_join (e : Event) : bool :=
  match e with
  | Connection _ => true
  | JoinGame _ _ => true
  | _ => false
  end.

Definition only_joins (evs : list Event) : bool := forallb is_join evs.

(** No two connected sockets are bound to the same player id. *)
Definition unique_conns (cs : gmap SocketId Conn) : Prop :=
  ∀ s1 s2 c1 c2 pid, s1 ≠ s2 →
    cs !! s1 = Some c1 → cs !! s2 = Some c2 →
    connected c1 = true → connected c2 = true →
    playerId c1 = Some pid → playerId c2 = Some pid → False.

Definition unique_binding (w : World) : Prop := unique_conns (conns w).

(** Two connected sockets carry the same id only if it is no roster key (and
    then it is one of the reserved names): no player has two sessions. *)
Definition unique_on (m : gmap string Player) (cs : gmap SocketId Conn) : Prop :=
  ∀ s1 s2 c1 c2 pid, s1 ≠ s2 →
    cs !! s1 = Some c1 → cs !! s2 = Some c2 →
    connected c1 = true → connected c2 = true →
    playerId c1 = Some pid → playerId c2 = Some pid →
    m !! pid = None ∧ pid ∈ reserved_names.

Definition one_session_per_player (w : World) : Prop :=
  unique_on (players (gameState w)) (conns w).

(** Some other connected socket is bound to [pid]. *)
Definition bound_elsewhere (w : World) (s : SocketId) (pid : string) : bool :=
  existsb (λ sc, negb (bool_decide (sc.1 = s)) && connected sc.2
                 && bool_decide (playerId sc.2 = Some pid))
          (map_to_list (conns w)).

(** A [reconnectPlayer] is exclusive when the id it names is not a roster key
    or no other connected socket is bound to it. *)
Definition exclusive_event (w : World) (e : Event) : bool :=
  match e with
  | ReconnectPlayer s pid _ =>
      negb (bool_decide (is_Some (players (gameState w) !! pid))
            && bound_elsewhere w s pid)
  | _ => true
  end.

Definition exclusive_reconnects : World → list Event → bool :=
  trace_ok exclusive_event.

(** Every binding was made by a join or a reconnect: the flag is set and the
    id is not the empty string. *)
Definition bound_wf (w : World) : Prop :=
  ∀ s c pid, conns w !! s = Some c → playerId c = Some pid →
    hasJoined c = true ∧ pid ≠ ""%string.

(** Connection [s] is open and bound to [pid], which is not a roster key, and
    no pending leave sweep of [s] names a roster key. *)
Definition stranded (w : World) (s : SocketId) (pid : string) : Prop :=
  (∃ c, conns w !! s = Some c ∧ playerId c = Some pid
        ∧ hasJoined c = true ∧ connected c = true)
  ∧ players (gameState w) !! pid = None
  ∧ ∀ k p', timers w !! k = Some (LeaveSweep s p') →
            players (gameState w) !! p' = None.

(** The ids of [uuidv4] are none of the reserved names.  An event is plain
    when the ids it carries (the one generated for it, the one a client
    presents) are not reserved; a world is plain when the ids held by its
    connections and captured by its pending closures are not. *)
Definition plain_event (e : Event) : bool :=
  match e with
  | JoinGame _ u => bool_decide (u ∉ reserved_names)
  | ReconnectPlayer _ pid u =>
      bool_decide (pid ∉ reserved_names) && bool_decide (u ∉ reserved_names)
  | _ => true
  end.

Definition plain_trace (evs : list Event) : bool := forallb plain_event evs.

Definition plain_world (w : World) : Prop :=
  (∀ s c pid, conns w !! s = Some c → playerId c = Some pid → pid ∉ reserved_names)
  ∧ (∀ k t pid, timers w !! k = Some t → timer_pid t = Some pid →
       pid ∉ reserved_names).

(** Events that neither rebind nor close connection [s]. *)
Definition keeps_session (s : SocketId) (e : Event) : bool :=
  match e with
  | ReconnectPlayer s' _ _ => negb (bool_decide (s' = s))
  | Disconnect s' => negb (bool_decide (s' = s))
  | _ => true
  end.

Definition session_kept (s : SocketId) (evs : list Event) : bool :=
  forallb (keeps_session s) evs.

(** The events of a stranded connection that the server ignores. *)
Inductive ignored_event (s : SocketId) : Event → Prop :=
  | ignored_playerUpdate pos rot : ignored_event s (PlayerUpdate s pos rot)
  | ignored_collectBerry : ignored_event s (CollectBerry s)
  | ignored_moveSnail : ignored_event s (MoveSnail s)
  | ignored_attackQueen : ignored_event s (AttackQueen s)
  | ignored_leaveGame : ignored_event s (LeaveGame s)
  | ignored_joinGame u : ignored_event s (JoinGame s u).

(** ** Statements of the specification that the code does not meet as worded *)

(** The claim about the economic victory as the specification words it: the
    call that reaches 12 ends the game with one [gameOver]; later calls only
    count. *)
Definition collectBerry_once_claimed (w : World) (s : SocketId) : Prop :=
  ∀ pid p, bound_to w s pid p → role p = worker →
    let r := handle (CollectBerry s) w in
    let n := berry_get (team p) (berryCount (gameState w)) in
    let n' := berry_get (team p) (berryCount (gameState r.1)) in
    (n + 1 = 12 →
       status (gameState r.1) = ended ∧ gameOvers r.2 = [(team p, economic)])
    ∧ (12 ≤ n → n' = n + 1 ∧ gameOvers r.2 = []).

(** The claim about [attackQueen] as the specification words it. *)
Definition attackQueen_claimed (w : World) (s : SocketId) : Prop :=
  ∀ pid p, bound_to w s pid p →
    let r := handle (AttackQueen s) w in
    let g := gameState w in
    let g' := gameState r.1 in
    (role p = soldier →
       queenAlive (opponent (team p)) g' = false
       ∧ score (team p) g' = score (team p) g + 1
       ∧ (score (team p) g' = 3 →
            status g' = ended ∧ (team p, military) ∈ gameOvers r.2))
    ∧ (role p ≠ soldier → gameState r.1 = gameState w).

(** The claim about [playerUpdate] as the specification words it: applied for
    an active bound player, not applied for an inactive one. *)
Definition playerUpdate_claimed (w : World) (s : SocketId) (pos rot : Vec3) : Prop :=
  ∀ pid p, bound_to w s pid p →
    let g := gameState w in
    let g' := gameState (handle (PlayerUpdate s pos rot) w).1 in
    (isActive p = true →
       g' = set_players (<[pid := set_pose pos rot p]> (players g)) g)
    ∧ (isActive p = false → g' = g).

(** The claim as the specification words it: whatever the clients send, a
    player has at most one live session. *)
Definition session_unique_claimed (evs : list Event) : Prop :=
  fresh_trace initialWorld evs = true → unique_binding (run evs initialWorld).1.

(** ** Predicates of the further properties *)

(** Members of team [t] holding role [r]. *)
Definition role_count (r : Role) (t : Team) (m : gmap string Player) : nat :=
  length (with_role r (on_team t (values m))).

(** How far the two team sizes are apart. *)
Definition imbalance (m : gmap string Player) : Z :=
  Z.abs (Z.of_nat (team_size blue m) - Z.of_nat (team_size gold m)).

(** The connection may still join: the guard of [joinGame] does not fire. *)
Definition may_join (c : Conn) : Prop :=
  connected c = true ∧ hasJoined c = false ∧ truthy (playerId c) = false.

(** The counters stay in their ranges. *)
Definition counters_in_range (g : GameState) : Prop :=
  0 ≤ snailPosition g ≤ 100
  ∧ 0 ≤ blueScore g ∧ 0 ≤ goldScore g
  ∧ 0 ≤ berry_blue (berryCount g) ∧ 0 ≤ berry_gold (berryCount g).

(** One of the three victories is on the board. *)
Definition win_condition (g : GameState) : Prop :=
  12 ≤ berry_blue (berryCount g) ∨ 12 ≤ berry_gold (berryCount g)
  ∨ 3 ≤ blueScore g ∨ 3 ≤ goldScore g
  ∨ snailPosition g ≤ 0 ∨ 100 ≤ snailPosition g.

(** What the status field can be, given the rest of the state. *)
Definition status_consistent (g : GameState) : Prop :=
  status g ≠ starting
  ∧ (status g = waiting → (size (players g) ≤ 1)%nat)
  ∧ (win_condition g → status g = ended).

Definition status_rank (st : Status) : nat :=
  match st with waiting => 0 | starting => 1 | playing => 2 | ended => 3 end.

(** Every roster entry is filed under its own id. *)
Definition keyed_by_id (m : gmap string Player) : Prop :=
  ∀ k p, m !! k = Some p → id p = k.

(** The events a connection sends on behalf of its player. *)
Inductive player_event (s : SocketId) : Event → Prop :=
  | player_playerUpdate pos rot : player_event s (PlayerUpdate s pos rot)
  | player_collectBerry : player_event s (CollectBerry s)
  | player_moveSnail : player_event s (MoveSnail s)
  | player_attackQueen : player_event s (AttackQueen s)
  | player_leaveGame : player_event s (LeaveGame s).

Definition is_playerUpdate (e : Event) : bool :=
  match e with PlayerUpdate _ _ _ => true | _ => false end.

(** The three players of the scenario and a fourth connection that has not
    joined. *)
Definition three_and_a_visitor : list Event := scenario_joins ++ [Connection "s4"].

(** The visitor presents a name that the roster object inherits. *)
Definition visitor_as_toString : list Event :=
  three_and_a_visitor ++ [ ReconnectPlayer "s4" "toString" "p4" ].

(** The handles of the pending timers are below the next handle, and every
    inactive roster entry is named by a pending sweep. *)
Definition sweep_pending (w : World) : Prop :=
  (∀ k, is_Some (timers w !! k) → (k < nextTimer w)%nat)
  ∧ ∀ pid p, players (gameState w) !! pid = Some p → isActive p = false →
      ∃ k t, timers w !! k = Some t ∧ timer_pid t = Some pid.

(** A drop and a second drop after coming back, both within the grace
    period of the first. *)
Definition drop_twice : list Event :=
  [ Connection "s1"; JoinGame "s1" "p1"; Connection "s2"; JoinGame "s2" "p2";
    Disconnect "s1"; Connection "s3"; ReconnectPlayer "s3" "p1" "p3";
    Disconnect "s3" ].

(** ** Tactics *)

Ltac use_bound H :=
  let c := fresh "c" in
  let Hc := fresh "Hc" in
  let Hon := fresh "Hon" in
  let Hid := fresh "Hid" in
  let Hne := fresh "Hne" in
  let Hp := fresh "Hp" in
  destruct H as (c & Hc & Hon & Hid & Hne & Hp);
  cbn [handle]; unfold on_socket;
  rewrite Hc, Hon.

Ltac unfold_handlers :=
  unfold handle, on_socket, connection, joinGame, playerUpdate, collectBerry,
    moveSnail, attackQueen, disconnect, leaveGame, reconnectPlayer, fireTimer,
    idleTick, setTimeout, clearFired, set_conn, set_gameState, store_pose,
    store_isActive, set_inherited in *.

Ltac handler_cases :=
  unfold_handlers; repeat case_match; simplify_eq; cbn in *.

Ltac goal_decide :=
  match goal with
  | |- context [decide (?a = ?b)] => destruct (decide (a = b))
  end.

Ltac step_cases :=
  cbn [handle];
  unfold on_socket, connection, joinGame, playerUpdate, collectBerry,
    moveSnail, attackQueen, disconnect, leaveGame, reconnectPlayer,
    fireTimer, idleTick, start_if_ready;
  repeat case_match; simplify_eq;
  cbn [fst snd set_conn set_gameState setTimeout clearFired store_pose
       store_isActive set_inherited gameState conns inherited
       timers nextTimer players status blueScore goldScore blueQueenAlive
       goldQueenAlive snailPosition berryCount set_players set_status
       set_snailPosition set_berryCount set_blueScore set_goldScore
       set_blueQueenAlive set_goldQueenAlive initialGameState berry_blue
       berry_gold] in *.

Ltac decide_hyps :=
  repeat match goal with
         | H : _ && _ = true |- _ => apply andb_true_iff in H as [? ?]
         | H : _ && _ = false |- _ => apply andb_false_iff in H as [H|H]
         | H : negb _ = true |- _ => apply negb_true_iff in H
         | H : negb _ = false |- _ => apply negb_false_iff in H
         | H : bool_decide _ = true |- _ => apply bool_decide_eq_true in H
         | H : bool_decide _ = false |- _ => apply bool_decide_eq_false in H
         end.

Ltac in_list H :=
  repeat (apply elem_of_cons in H as [H|H]; [simplify_eq; try done|]);
  try (by apply elem_of_nil in H).

Ltac world_lookup :=
  cbn [fst snd set_conn setTimeout set_gameState clearFired gameState conns
       timers nextTimer inherited players set_players];
  rewrite ?lookup_insert_eq, ?lookup_insert_ne by done; done.

(** * Properties *)

(** ** Basic facts about the handlers *)

Lemma truthy_Some pid : pid ≠ ""%string → truthy (Some pid) = true.
Proof. intros H. unfold truthy. by rewrite bool_decide_eq_false_2. Qed.

Lemma lookup_player_entry (w : World) (pid : string) (p : Player) :
  players (gameState w) !! pid = Some p → lookup_player w pid = Some (Entry p).
Proof. intros H. unfold lookup_player. by rewrite H. Qed.

Lemma lookup_player_own (w : World) (pid : string) (p : Player) :
  lookup_player w pid = Some (Entry p) ↔ players (gameState w) !! pid = Some p.
Proof.
  split; [|apply lookup_player_entry].
  unfold lookup_player. repeat case_match; intros; by simplify_eq.
Qed.

(** Away from the names that [Object.prototype] can hold, the lookup finds
    roster entries and nothing else. *)
Lemma lookup_player_plain (w : World) (k : string) :
  k ∉ reserved_names → lookup_player w k = Entry <$> players (gameState w) !! k.
Proof.
  unfold reserved_names. rewrite elem_of_app, !elem_of_cons. intros Hk.
  unfold lookup_player. destruct (players (gameState w) !! k); [done|].
  rewrite bool_decide_eq_false_2 by tauto.
  rewrite !bool_decide_eq_false_2 by (intros ->; tauto). done.
Qed.

Lemma bound_player_Some c w pid p :
  playerId c = Some pid → pid ≠ ""%string → players (gameState w) !! pid = Some p →
  bound_player c w = Some (pid, Entry p).
Proof.
  intros Hc Hne Hp. unfold bound_player.
  rewrite Hc, (truthy_Some _ Hne), (lookup_player_entry _ _ _ Hp). reflexivity.
Qed.

Lemma bound_player_None c w :
  (∀ pid, playerId c = Some pid → pid = ""%string ∨ lookup_player w pid = None) →
  bound_player c w = None.
Proof.
  intros H. unfold bound_player. destruct (playerId c) as [pid|]; [|done].
  destruct (H pid eq_refl) as [-> | Hl]; [done|].
  rewrite Hl. by destruct (truthy (Some pid)).
Qed.

Lemma bound_player_inv c w pid v :
  bound_player c w = Some (pid, v) →
  playerId c = Some pid ∧ pid ≠ ""%string ∧ lookup_player w pid = Some v.
Proof.
  unfold bound_player. destruct (playerId c) as [pid'|]; [|done].
  destruct (truthy (Some pid')) eqn:Ht; [|done].
  destruct (lookup_player w pid') eqn:Hl; [|done].
  intros; simplify_eq. split; [done|]. split; [|done].
  unfold truthy in Ht. by apply negb_true_iff, bool_decide_eq_false in Ht.
Qed.

Lemma on_socket_connected s w h c :
  conns w !! s = Some c → connected c = true → on_socket s w h = h c.
Proof. intros H1 H2. unfold on_socket. by rewrite H1, H2. Qed.

Lemma start_if_ready_players g : players (start_if_ready g) = players g.
Proof. unfold start_if_ready. by destruct (_ && _). Qed.

Lemma length_keys (m : gmap string Player) : length (keys m) = size m.
Proof. unfold keys. rewrite length_fmap. apply length_map_to_list. Qed.

Lemma reconnect_unknown_as_join (w : World) (s : SocketId) (c : Conn) (pid uuid : string) :
  conns w !! s = Some c → connected c = true →
  pid = ""%string ∨ lookup_player w pid = None →
  handle (ReconnectPlayer s pid uuid) w
  = joinGame s uuid w {| hasJoined := false; playerId := None; connected := true |}.
Proof.
  intros Hc Hon Hp. cbn [handle]. rewrite (on_socket_connected _ _ _ _ Hc Hon).
  unfold reconnectPlayer, joinGame.
  assert ((if truthy (Some pid) then lookup_player w pid else None) = None) as ->.
  { destruct Hp as [-> | ->]; [done|]. by destruct (truthy (Some pid)). }
  by rewrite Hon.
Qed.

Lemma first_join_result (w : World) (s : SocketId) (uuid : string) :
  let r := joinGame s uuid w {| hasJoined := false; playerId := None; connected := true |} in
  let g := gameState w in
  let g' := gameState r.1 in
  let tr := assignTeamAndRole (players g) in
  players g' !! uuid
    = Some {| id := uuid; position := spawn tr.1; rotation := (0, 0, 0);
              team := tr.1; role := tr.2; isActive := true |}
  ∧ (∀ j, j ≠ uuid → players g' !! j = players g !! j)
  ∧ (status g = waiting → (2 ≤ size (players g'))%nat → status g' = playing)
  ∧ (status g ≠ waiting ∨ (size (players g') < 2)%nat → status g' = status g)
  ∧ r.2 = [(ToSocket s, playerAssigned uuid tr.1 tr.2); (ToAll, gameStateMsg g')]
  ∧ conns r.1 !! s = Some {| hasJoined := true; playerId := Some uuid; connected := true |}.
Proof.
  unfold joinGame.
  cbn [hasJoined playerId truthy orb connected fst snd
    set_conn set_gameState gameState conns].
  rewrite start_if_ready_players. cbn [set_players players].
  split; [by rewrite lookup_insert_eq|].
  split; [intros j Hj; by rewrite lookup_insert_ne|].
  unfold start_if_ready. cbn [set_players players status].
  rewrite length_keys.
  split; [|split; [|split]].
  - intros Hs Hsz. rewrite !bool_decide_eq_true_2 by done. done.
  - intros [Hs|Hsz].
    + by rewrite (bool_decide_eq_false_2 (status _ = waiting)).
    + rewrite (bool_decide_eq_false_2 (2 ≤ _)%nat) by lia.
      by rewrite andb_false_r.
  - done.
  - by rewrite lookup_insert_eq.
Qed.

(** ** Invariants along a trace *)

Lemma run_cons (e : Event) (evs : list Event) (w : World) :
  (run (e :: evs) w).1
  = if throws e w then (handle e w).1 else (run evs (handle e w).1).1.
Proof. cbn [run]. by destruct (throws e w). Qed.

Section TraceInvariant.
Variable ok : World → Event → bool.
Variable Inv : World → Prop.
Hypothesis Inv_step : ∀ e w, ok w e = true → Inv w → Inv (handle e w).1.

Lemma run_invariant (evs : list Event) (w : World) :
  trace_ok ok w evs = true → Inv w → Inv (run evs w).1.
Proof.
  revert w. induction evs as [|e evs IH]; intros w Hok Hinv; [done|].
  cbn [trace_ok] in Hok. apply andb_true_iff in Hok as [Hok1 Hok2].
  rewrite run_cons. destruct (throws e w); [by apply Inv_step|].
  apply IH; [done|]. by apply Inv_step.
Qed.
End TraceInvariant.

Lemma trace_ok_both (ok1 ok2 : World → Event → bool) (evs : list Event) (w : World) :
  trace_ok ok1 w evs = true → trace_ok ok2 w evs = true →
  trace_ok (λ w e, ok1 w e && ok2 w e) w evs = true.
Proof.
  revert w. induction evs as [|e evs IH]; intros w H1 H2; [done|].
  cbn [trace_ok] in *.
  apply andb_true_iff in H1 as [H1 H1'].
  apply andb_true_iff in H2 as [H2 H2'].
  rewrite H1, H2. cbn [andb].
  destruct (throws e w); [done|]. by apply IH.
Qed.

Lemma trace_ok_forallb (f : Event → bool) (evs : list Event) (w : World) :
  forallb f evs = true → trace_ok (λ _ e, f e) w evs = true.
Proof.
  revert w. induction evs as [|e evs IH]; intros w H; [done|].
  cbn [trace_ok forallb] in *.
  apply andb_true_iff in H as [H1 H2].
  rewrite H1. cbn [andb]. apply orb_true_iff. right. by apply IH.
Qed.

Lemma trace_ok_take (ok : World → Event → bool) (k : nat) (evs : list Event) (w : World) :
  trace_ok ok w evs = true → trace_ok ok w (take k evs) = true.
Proof.
  revert k w. induction evs as [|e evs IH]; intros [|k] w H; try done.
  cbn [trace_ok take] in *.
  apply andb_true_iff in H as [H1 H2].
  apply andb_true_iff. split; [done|].
  destruct (throws e w); [done|]. by apply IH.
Qed.

(** ** The end-to-end scenario of the specification *)

Example scenario_assignments :
  (run scenario_joins initialWorld).2.*2
  = [ playerAssigned "p1" blue queen;
      gameStateMsg (gameState (run (take 2 scenario_joins) initialWorld).1);
      playerAssigned "p2" gold queen;
      gameStateMsg (gameState (run (take 4 scenario_joins) initialWorld).1);
      playerAssigned "p3" blue worker;
      gameStateMsg (gameState (run scenario_joins initialWorld).1) ].
Proof. vm_compute. reflexivity. Qed.

Example scenario_status :
  status (gameState (run scenario_joins initialWorld).1) = playing
  ∧ fresh_trace initialWorld scenario_joins = true.
Proof. vm_compute. split; reflexivity. Qed.

(** ** One queen per team *)

Lemma values_insert_fresh (m : gmap string Player) (k : string) (p : Player) :
  m !! k = None → values (<[k := p]> m) ≡ₚ p :: values m.
Proof.
  intros Hk. unfold values. by rewrite (map_to_list_insert m k p Hk).
Qed.

Lemma team_size_insert (t : Team) (m : gmap string Player) (k : string) (p : Player) :
  m !! k = None →
  team_size t (<[k := p]> m)
  = ((if decide (team p = t) then 1 else 0) + team_size t m)%nat.
Proof.
  intros Hk. unfold team_size, on_team.
  rewrite (values_insert_fresh m k p Hk), filter_cons.
  by destruct (decide (team p = t)).
Qed.

Lemma queens_insert (t : Team) (m : gmap string Player) (k : string) (p : Player) :
  m !! k = None →
  queens t (<[k := p]> m)
  = ((if decide (team p = t ∧ role p = queen) then 1 else 0) + queens t m)%nat.
Proof.
  intros Hk. unfold queens, on_team, with_role.
  rewrite (values_insert_fresh m k p Hk), filter_cons.
  destruct (decide (team p = t)) as [Ht|Ht].
  - rewrite filter_cons.
    destruct (decide (role p = queen)) as [Hr|Hr].
    + by rewrite decide_True.
    + rewrite decide_False by tauto. done.
  - rewrite decide_False by tauto. done.
Qed.

Lemma queens_le_team_size (t : Team) (m : gmap string Player) :
  (queens t m ≤ team_size t m)%nat.
Proof. unfold queens, team_size, with_role. apply length_filter. Qed.

Lemma some_queen_length (l : list Player) :
  some_queen l = true ↔ length (with_role queen l) ≠ 0%nat.
Proof.
  unfold some_queen, with_role. induction l as [|p l IH]; [done|].
  cbn [existsb]. rewrite filter_cons.
  destruct (decide (role p = queen)) as [Hr|Hr].
  - rewrite bool_decide_eq_true_2 by done. done.
  - rewrite bool_decide_eq_false_2 by done. done.
Qed.

(** The role chosen is queen exactly when the chosen team has no queen. *)
Lemma assign_queen_iff (m : gmap string Player) :
  (assignTeamAndRole m).2 = queen ↔ queens (assignTeamAndRole m).1 m = 0%nat.
Proof.
  unfold assignTeamAndRole, queens.
  set (t := if bool_decide _ then blue else gold).
  case_bool_decide as Hlen; cbn [fst snd].
  - pose proof (length_filter (λ p, role p = queen) (on_team t (values m))).
    unfold with_role. split; [lia|done].
  - destruct (some_queen (on_team t (values m))) eqn:Hq; cbn [negb fst snd].
    + apply some_queen_length in Hq. split; [|done].
      by case_bool_decide.
    + split; [|done]. intros _.
      destruct (decide (length (with_role queen (on_team t (values m))) = 0%nat))
        as [|Hn]; [done|].
      apply some_queen_length in Hn. congruence.
Qed.

Lemma assign_keeps_one_queen (m : gmap string Player) (u : string) (pos rot : Vec3) (a : bool) :
  m !! u = None → one_queen_per_team m →
  one_queen_per_team
    (<[u := {| id := u; position := pos; rotation := rot;
               team := (assignTeamAndRole m).1; role := (assignTeamAndRole m).2;
               isActive := a |}]> m).
Proof.
  intros Hu Hinv t. rewrite team_size_insert, queens_insert by done.
  cbn [team role].
  pose proof (assign_queen_iff m) as Hiff.
  pose proof (queens_le_team_size t m) as Hle.
  specialize (Hinv t).
  destruct (decide ((assignTeamAndRole m).1 = t)) as [<-|Ht].
  - intros _.
    destruct (decide (queens (assignTeamAndRole m).1 m = 0%nat)) as [Hz|Hz].
    + rewrite decide_True by tauto. lia.
    + rewrite decide_False by tauto. lia.
  - rewrite decide_False by tauto. cbn. done.
Qed.

Lemma one_queen_empty : one_queen_per_team ∅.
Proof. intros t. unfold team_size, values. rewrite map_to_list_empty. cbn. lia. Qed.

Lemma fresh_uuid_absent (w : World) (u : string) :
  fresh_uuid w u = true → players (gameState w) !! u = None.
Proof.
  unfold fresh_uuid. rewrite !andb_true_iff.
  intros [[[_ H] _] _]. by apply bool_decide_eq_true in H.
Qed.

Lemma join_step_one_queen (e : Event) (w : World) :
  is_join e = true → fresh_event w e = true →
  one_queen_per_team (players (gameState w)) →
  one_queen_per_team (players (gameState (handle e w).1)).
Proof.
  intros Hj Hf Hinv. destruct e; try discriminate Hj.
  - cbn [handle]. unfold connection. by case_match.
  - apply fresh_uuid_absent in Hf.
    cbn [handle]. unfold on_socket, joinGame.
    repeat case_match; try done.
    cbn [fst set_conn set_gameState gameState].
    rewrite start_if_ready_players. cbn [set_players players].
    by apply assign_keeps_one_queen.
Qed.

Lemma joins_one_queen (evs : list Event) (w : World) :
  only_joins evs = true → fresh_trace w evs = true →
  one_queen_per_team (players (gameState w)) →
  one_queen_per_team (players (gameState (run evs w).1)).
Proof.
  intros Hj Hf.
  apply (run_invariant (λ w e, is_join e && fresh_event w e)
           (λ w, one_queen_per_team (players (gameState w)))).
  - intros e w0 Hok. apply andb_true_iff in Hok as [H1 H2].
    by apply join_step_one_queen.
  - apply (trace_ok_both (λ _ e, is_join e) fresh_event); [|done].
    by apply trace_ok_forallb.
Qed.

Lemma only_joins_take (k : nat) (evs : list Event) :
  only_joins evs = true → only_joins (take k evs) = true.
Proof.
  revert k. induction evs as [|e evs IH]; intros [|k] H; try done.
  cbn [only_joins forallb take] in *.
  apply andb_true_iff in H as [H1 H2].
  apply andb_true_iff. split; [done|]. by apply IH.
Qed.

(** C1. Start from the initial world and let connections open and issue
    [joinGame] in any order (nothing else happens, and [uuidv4] returns
    unused ids).  After every prefix of the sequence, each team with at least
    one member has exactly one queen. *)
Theorem joins_keep_one_queen (evs : list Event) (k : nat) (t : Team) :
  only_joins evs = true → fresh_trace initialWorld evs = true →
  let m := players (gameState (run (take k evs) initialWorld).1) in
  (0 < team_size t m)%nat → queens t m = 1%nat.
Proof.
  intros Hj Hf m. apply (joins_one_queen (take k evs) initialWorld).
  - by apply only_joins_take.
  - by apply trace_ok_take.
  - apply one_queen_empty.
Qed.

(** After five of the six joins gold has two members and one queen. *)
Lemma joins_keep_one_queen_witness :
  let m := players (gameState (run (take 10 six_joins) initialWorld).1) in
  team_size gold m = 2%nat ∧ queens gold m = 1%nat.
Proof.
  split; [vm_compute; reflexivity|].
  apply (joins_keep_one_queen six_joins 10 gold);
    [vm_compute; reflexivity | vm_compute; reflexivity | vm_compute; lia].
Defined.

(** ** Economic victory *)

(** The thirteenth berry of the worker in the specification's scenario: the
    game is over already, and the call still sends a [gameOver]. *)
Lemma collectBerry_again_counterexample :
  ¬ collectBerry_once_claimed (run twelve_berries initialWorld).1 "s3".
Proof.
  intros H.
  destruct (H "p3" (joined "p3" blue worker)) as [_ Hlater]; [|reflexivity|].
  { exists (bound_conn "p3"). vm_compute. repeat split; congruence. }
  destruct Hlater as [_ Hnone]; [vm_compute; discriminate|].
  assert (gameOvers (handle (CollectBerry "s3") (run twelve_berries initialWorld).1).2
          = [(blue, economic)]) as Hr by (vm_compute; reflexivity).
  rewrite Hr in Hnone. discriminate Hnone.
Qed.

(** C2 (amended). A worker's [collectBerry] always adds one to the team's
    count.  While the new count is below 12 the status is kept and no
    [gameOver] is sent.  When the new count is 12 or more (the call that
    reaches 12 and every later one) the status is set to ended and that call
    sends exactly one [gameOver] for the team, reason economic, followed by
    the state. *)
Theorem collectBerry_economic (w : World) (s : SocketId) (pid : string) (p : Player) :
  bound_to w s pid p → role p = worker →
  let r := handle (CollectBerry s) w in
  let n := berry_get (team p) (berryCount (gameState w)) in
  let n' := berry_get (team p) (berryCount (gameState r.1)) in
  n' = n + 1
  ∧ (n' < 12 →
       status (gameState r.1) = status (gameState w) ∧ gameOvers r.2 = [])
  ∧ (12 ≤ n' →
       status (gameState r.1) = ended
       ∧ gameOvers r.2 = [(team p, economic)]
       ∧ r.2 = [(ToAll, gameOver (team p) economic);
                (ToAll, gameStateMsg (gameState r.1))]).
Proof.
  intros Hb Hr. use_bound Hb. unfold collectBerry.
  rewrite (bound_player_Some _ _ _ _ Hid Hne Hp).
  rewrite bool_decide_eq_true_2 by done.
  assert (berry_get (team p)
            (berryCount (set_berryCount
               (berry_incr (team p) (berryCount (gameState w))) (gameState w)))
          = berry_get (team p) (berryCount (gameState w)) + 1) as Hincr.
  { destruct (team p); reflexivity. }
  case_bool_decide as Hge; cbn [fst snd set_gameState gameState set_status
    berryCount status gameOvers omap] in *; rewrite Hincr in *;
    (split; [done|]); split; intros; (lia || done).
Qed.

(** The same thirteenth berry, by the theorem: counted, and announced again. *)
Lemma collectBerry_economic_witness :
  let w := (run twelve_berries initialWorld).1 in
  let r := handle (CollectBerry "s3") w in
  bound_to w "s3" "p3" (joined "p3" blue worker)
  ∧ berry_get blue (berryCount (gameState w)) = 12
  ∧ status (gameState w) = ended
  ∧ berry_get (team (joined "p3" blue worker)) (berryCount (gameState r.1))
    = berry_get (team (joined "p3" blue worker)) (berryCount (gameState w)) + 1
  ∧ gameOvers r.2 = [(team (joined "p3" blue worker), economic)].
Proof.
  assert (bound_to (run twelve_berries initialWorld).1 "s3" "p3"
            (joined "p3" blue worker)) as Hb.
  { exists (bound_conn "p3"). vm_compute. repeat split; congruence. }
  split; [exact Hb|].
  split; [vm_compute; reflexivity|]. split; [vm_compute; reflexivity|].
  destruct (collectBerry_economic _ _ _ _ Hb eq_refl) as (Hn & _ & Hge).
  split; [exact Hn|].
  refine (proj1 (proj2 (Hge _))). vm_compute. discriminate.
Defined.

(** ** collectBerry *)

(** C3. A [collectBerry] from a bound worker adds one to the berry count of
    the caller's team and leaves the other team's count as it was; from a
    bound player of any other role it leaves the whole [GameState] (both
    counters and every other field) unchanged, and emits nothing. *)
Theorem collectBerry_counters (w : World) (s : SocketId) (pid : string) (p : Player) :
  bound_to w s pid p →
  let r := handle (CollectBerry s) w in
  let b := berryCount (gameState w) in
  let b' := berryCount (gameState r.1) in
  (role p = worker →
     berry_get (team p) b' = berry_get (team p) b + 1
     ∧ berry_get (opponent (team p)) b' = berry_get (opponent (team p)) b)
  ∧ (role p ≠ worker → gameState r.1 = gameState w ∧ r = (w, [])).
Proof.
  intros Hb. use_bound Hb. unfold collectBerry.
  rewrite (bound_player_Some _ _ _ _ Hid Hne Hp).
  split.
  - intros Hr. rewrite bool_decide_eq_true_2 by done.
    case_bool_decide; cbn; destruct (team p); cbn; done.
  - intros Hr. by rewrite bool_decide_eq_false_2.
Qed.

(** In the three-player scenario the blue worker's call counts for blue; the
    gold queen's call is ignored. *)
Lemma collectBerry_counters_witness :
  let w := (run scenario_joins initialWorld).1 in
  let r := handle (CollectBerry "s3") w in
  bound_to w "s3" "p3" (joined "p3" blue worker)
  ∧ bound_to w "s2" "p2" (joined "p2" gold queen)
  ∧ berry_get blue (berryCount (gameState r.1)) = 1
  ∧ berry_get (team (joined "p3" blue worker)) (berryCount (gameState r.1))
    = berry_get (team (joined "p3" blue worker)) (berryCount (gameState w)) + 1
  ∧ handle (CollectBerry "s2") w = (w, []).
Proof.
  assert (bound_to (run scenario_joins initialWorld).1 "s3" "p3"
            (joined "p3" blue worker)) as Hb3.
  { exists (bound_conn "p3"). vm_compute. repeat split; congruence. }
  assert (bound_to (run scenario_joins initialWorld).1 "s2" "p2"
            (joined "p2" gold queen)) as Hb2.
  { exists (bound_conn "p2"). vm_compute. repeat split; congruence. }
  split; [exact Hb3|]. split; [exact Hb2|].
  split; [vm_compute; reflexivity|].
  split.
  - exact (proj1 (proj1 (collectBerry_counters _ _ _ _ Hb3) eq_refl)).
  - refine (proj2 (proj2 (collectBerry_counters _ _ _ _ Hb2) _)). discriminate.
Defined.

(** ** moveSnail *)

(** C4. A [moveSnail] from a bound worker moves the snail by +1 (blue) or -1
    (gold), clamped to [0,100]; at 100 the game ends with
    [gameOver{blue, snail}], at 0 with [gameOver{gold, snail}], strictly in
    between the status is kept and no [gameOver] is sent; from a non-worker
    the snail and the status are unchanged. *)
Theorem moveSnail_spec (w : World) (s : SocketId) (pid : string) (p : Player) :
  bound_to w s pid p →
  let r := handle (MoveSnail s) w in
  let g := gameState w in
  let g' := gameState r.1 in
  (role p = worker →
     snailPosition g'
       = Z.min 100 (Z.max 0 (snailPosition g + match team p with blue => 1 | gold => -1 end))
     ∧ 0 ≤ snailPosition g' ≤ 100
     ∧ (snailPosition g' = 100 →
          status g' = ended
          ∧ r.2 = [(ToAll, gameOver blue snail); (ToAll, gameStateMsg g')])
     ∧ (snailPosition g' = 0 →
          status g' = ended
          ∧ r.2 = [(ToAll, gameOver gold snail); (ToAll, gameStateMsg g')])
     ∧ (0 < snailPosition g' < 100 →
          status g' = status g ∧ r.2 = [(ToAll, gameStateMsg g')]))
  ∧ (role p ≠ worker →
       snailPosition g' = snailPosition g ∧ status g' = status g ∧ r = (w, [])).
Proof.
  intros Hb. use_bound Hb. unfold moveSnail.
  rewrite (bound_player_Some _ _ _ _ Hid Hne Hp).
  split.
  - intros Hr. rewrite bool_decide_eq_true_2 by done.
    set (n := Z.min 100 (Z.max 0 (snailPosition (gameState w)
                 + match team p with blue => 1 | gold => -1 end))).
    assert (0 ≤ n ≤ 100) by (unfold n; lia).
    cbn [set_snailPosition snailPosition].
    repeat case_bool_decide; cbn; (split; [done|]); (split; [done|]);
      repeat split; intros; try lia; done.
  - intros Hr. by rewrite bool_decide_eq_false_2.
Qed.

(** In the three-player scenario the blue worker moves the snail from 50 to
    51; the blue queen's call is ignored. *)
Lemma moveSnail_spec_witness :
  let w := (run scenario_joins initialWorld).1 in
  let r := handle (MoveSnail "s3") w in
  bound_to w "s3" "p3" (joined "p3" blue worker)
  ∧ bound_to w "s1" "p1" (joined "p1" blue queen)
  ∧ snailPosition (gameState w) = 50
  ∧ snailPosition (gameState r.1) = 51
  ∧ 0 ≤ snailPosition (gameState r.1) ≤ 100
  ∧ handle (MoveSnail "s1") w = (w, []).
Proof.
  assert (bound_to (run scenario_joins initialWorld).1 "s3" "p3"
            (joined "p3" blue worker)) as Hb3.
  { exists (bound_conn "p3"). vm_compute. repeat split; congruence. }
  assert (bound_to (run scenario_joins initialWorld).1 "s1" "p1"
            (joined "p1" blue queen)) as Hb1.
  { exists (bound_conn "p1"). vm_compute. repeat split; congruence. }
  split; [exact Hb3|]. split; [exact Hb1|].
  split; [vm_compute; reflexivity|]. split; [vm_compute; reflexivity|].
  split.
  - exact (proj1 (proj2 (proj1 (moveSnail_spec _ _ _ _ Hb3) eq_refl))).
  - refine (proj2 (proj2 (proj2 (moveSnail_spec _ _ _ _ Hb1) _))). discriminate.
Defined.

(** ** attackQueen *)

(** Blue has won by three kills; the gold soldier's third kill is announced as
    a victory of blue. *)
Lemma attackQueen_winner_counterexample :
  ¬ attackQueen_claimed (run both_sides_killing initialWorld).1 "s6".
Proof.
  intros H.
  destruct (H "p6" (joined "p6" gold soldier)) as [Hs _].
  { exists (bound_conn "p6"). vm_compute. repeat split; congruence. }
  destruct (Hs eq_refl) as (_ & _ & Hwin).
  destruct Hwin as [_ Hin]; [vm_compute; reflexivity|].
  assert (gameOvers (handle (AttackQueen "s6") (run both_sides_killing initialWorld).1).2
          = [(blue, military)]) as Hr by (vm_compute; reflexivity).
  rewrite Hr in Hin.
  apply elem_of_cons in Hin as [Hin|Hin]; [discriminate Hin|].
  by apply elem_of_nil in Hin.
Qed.

(** C5 (amended). A soldier's [attackQueen] marks the opposing queen dead and
    adds one to the attacker's own score, the other score and flag staying
    as they were.  The victory test then reads blue's score first: when it
    is 3 or more the game ends with [gameOver] for blue, whoever attacked;
    otherwise, when gold's score is 3 or more, the game ends with [gameOver]
    for gold; otherwise the status is kept and only the state is sent.
    Hence, when the attacker's score reaches 3, the game ends with reason
    military, and the winner announced is the attacker's team unless blue's
    score is 3 or more, in which case it is blue.  From a non-soldier
    nothing changes. *)
Theorem attackQueen_spec (w : World) (s : SocketId) (pid : string) (p : Player) :
  bound_to w s pid p →
  let r := handle (AttackQueen s) w in
  let g := gameState w in
  let g' := gameState r.1 in
  (role p = soldier →
     queenAlive (opponent (team p)) g' = false
     ∧ score (team p) g' = score (team p) g + 1
     ∧ queenAlive (team p) g' = queenAlive (team p) g
     ∧ score (opponent (team p)) g' = score (opponent (team p)) g
     ∧ (3 ≤ blueScore g' →
          status g' = ended
          ∧ r.2 = [(ToAll, gameOver blue military); (ToAll, gameStateMsg g')])
     ∧ (blueScore g' < 3 → 3 ≤ goldScore g' →
          status g' = ended
          ∧ r.2 = [(ToAll, gameOver gold military); (ToAll, gameStateMsg g')])
     ∧ (blueScore g' < 3 → goldScore g' < 3 →
          status g' = status g ∧ r.2 = [(ToAll, gameStateMsg g')])
     ∧ (score (team p) g' = 3 →
          status g' = ended
          ∧ r.2 = [(ToAll, gameOver (if bool_decide (3 ≤ blueScore g')
                                     then blue else team p) military);
                   (ToAll, gameStateMsg g')]))
  ∧ (role p ≠ soldier → r = (w, [])).
Proof.
  intros Hb. use_bound Hb. unfold attackQueen.
  rewrite (bound_player_Some _ _ _ _ Hid Hne Hp).
  split.
  - intros Hr. rewrite bool_decide_eq_true_2 by done.
    destruct (team p) eqn:Ht; cbn [opponent set_goldScore set_blueScore
      set_blueQueenAlive set_goldQueenAlive blueScore goldScore];
      repeat case_bool_decide; cbn; repeat split; try done;
      intros; try lia; try (destruct_or?; (done || lia)).
  - intros Hr. by rewrite bool_decide_eq_false_2.
Qed.

(** Blue has three kills and the gold soldier makes gold's third: the game
    ends once more, and the winner announced is blue. *)
Lemma attackQueen_spec_witness :
  let w := (run both_sides_killing initialWorld).1 in
  let r := handle (AttackQueen "s6") w in
  bound_to w "s6" "p6" (joined "p6" gold soldier)
  ∧ blueScore (gameState w) = 3
  ∧ goldScore (gameState w) = 2
  ∧ goldScore (gameState r.1) = 3
  ∧ status (gameState r.1) = ended
  ∧ r.2 = [(ToAll, gameOver blue military); (ToAll, gameStateMsg (gameState r.1))].
Proof.
  assert (bound_to (run both_sides_killing initialWorld).1 "s6" "p6"
            (joined "p6" gold soldier)) as Hb.
  { exists (bound_conn "p6"). vm_compute. repeat split; congruence. }
  split; [exact Hb|].
  do 3 (split; [vm_compute; reflexivity|]).
  destruct (proj1 (attackQueen_spec _ _ _ _ Hb) eq_refl)
    as (_ & _ & _ & _ & Hblue & _).
  refine (Hblue _). vm_compute. discriminate.
Defined.

(** ** Pending timers *)

Lemma handle_timer_kept (e : Event) (w : World) (k : nat) (t : Timer) :
  timers w !! k = Some t → (k < nextTimer w)%nat → e ≠ TimerFires k →
  timers (handle e w).1 !! k = Some t ∧ (k < nextTimer (handle e w).1)%nat.
Proof.
  intros Hk Hlt Hne.
  destruct e; handler_cases;
    rewrite ?lookup_insert_ne, ?lookup_delete_ne by (lia || congruence);
    (split; [done | lia]).
Qed.

Lemma run_timer_kept (evs : list Event) (w : World) (k : nat) (t : Timer) :
  timers w !! k = Some t → (k < nextTimer w)%nat → TimerFires k ∉ evs →
  timers (run evs w).1 !! k = Some t ∧ (k < nextTimer (run evs w).1)%nat.
Proof.
  revert w. induction evs as [|e evs IH]; intros w Hk Hlt Hnot; [done|].
  rewrite run_cons.
  apply not_elem_of_cons in Hnot as [Hne Hnot].
  destruct (handle_timer_kept e w k t Hk Hlt) as [Hk' Hlt']; [congruence|].
  destruct (throws e w); [done|]. by apply IH.
Qed.

(** C6. A soldier's [attackQueen] schedules exactly one closure, with delay
    5000, for the opposing queen.  Whatever events happen before it fires
    (further attacks, the game ending, a reset), it is still pending; when it
    fires it sets that queen's alive flag to true, changes nothing else in
    the state, broadcasts the state, and is gone (one shot). *)
Theorem respawn_timer_spec (w : World) (s : SocketId) (pid : string) (p : Player) :
  bound_to w s pid p → role p = soldier →
  let w1 := (handle (AttackQueen s) w).1 in
  let k := nextTimer w in
  let target := opponent (team p) in
  timers w1 = <[k := RespawnQueen target]> (timers w)
  ∧ timer_delay (RespawnQueen target) = 5000
  ∧ ∀ evs, TimerFires k ∉ evs →
      let w2 := (run evs w1).1 in
      let r := handle (TimerFires k) w2 in
      timers w2 !! k = Some (RespawnQueen target)
      ∧ queenAlive target (gameState r.1) = true
      ∧ gameState r.1
        = match target with
          | blue => set_blueQueenAlive true (gameState w2)
          | gold => set_goldQueenAlive true (gameState w2)
          end
      ∧ r.2 = [(ToAll, gameStateMsg (gameState r.1))]
      ∧ timers r.1 = delete k (timers w2).
Proof.
  intros Hb Hr.
  assert (timers (handle (AttackQueen s) w).1
            = <[nextTimer w := RespawnQueen (opponent (team p))]> (timers w)
          ∧ nextTimer (handle (AttackQueen s) w).1 = S (nextTimer w)) as [Ht Hn].
  { use_bound Hb. unfold attackQueen.
    rewrite (bound_player_Some _ _ _ _ Hid Hne Hp).
    rewrite bool_decide_eq_true_2 by done.
    repeat case_match; done. }
  cbv zeta. split; [done|]. split; [done|].
  intros evs Hnot.
  destruct (run_timer_kept evs (handle (AttackQueen s) w).1 (nextTimer w)
              (RespawnQueen (opponent (team p)))) as [Hk _]; [|lia|done|].
  { rewrite Ht. apply lookup_insert_eq. }
  split; [done|].
  set (w2 := (run evs (handle (AttackQueen s) w).1).1) in *.
  change (handle (TimerFires (nextTimer w)) w2) with (fireTimer (nextTimer w) w2).
  unfold fireTimer. rewrite Hk.
  destruct (opponent (team p)); cbn; done.
Qed.

(** The first of four attacks schedules timer 0; three more attacks end the
    game and leave the gold queen dead; timer 0 revives her all the same. *)
Lemma respawn_timer_spec_witness :
  let w := (run six_joins initialWorld).1 in
  let evs := [AttackQueen "s5"; AttackQueen "s6"; AttackQueen "s5"] in
  let w2 := (run evs (handle (AttackQueen "s5") w).1).1 in
  bound_to w "s5" "p5" (joined "p5" blue soldier)
  ∧ nextTimer w = 0%nat
  ∧ status (gameState w2) = ended
  ∧ goldQueenAlive (gameState w2) = false
  ∧ goldQueenAlive (gameState (handle (TimerFires 0) w2).1) = true
  ∧ queenAlive (opponent (team (joined "p5" blue soldier)))
      (gameState (handle (TimerFires (nextTimer w)) w2).1) = true.
Proof.
  assert (bound_to (run six_joins initialWorld).1 "s5" "p5"
            (joined "p5" blue soldier)) as Hb.
  { exists (bound_conn "p5"). vm_compute. repeat split; congruence. }
  split; [exact Hb|].
  do 4 (split; [vm_compute; reflexivity|]).
  destruct (respawn_timer_spec _ _ _ _ Hb eq_refl) as (_ & _ & H).
  refine (proj1 (proj2 (H [AttackQueen "s5"; AttackQueen "s6"; AttackQueen "s5"] _))).
  intros Hin.
  repeat (apply elem_of_cons in Hin as [Hin|Hin]; [discriminate Hin|]).
  by apply elem_of_nil in Hin.
Defined.

(** ** playerUpdate *)

(** A player who has just left, and is inactive, still moves. *)
Lemma playerUpdate_inactive_counterexample :
  ¬ playerUpdate_claimed (run join_then_leave initialWorld).1 "s1" (1, 2, 3) (0, 0, 0).
Proof.
  intros H.
  destruct (H "p1" (set_isActive false (joined "p1" blue queen))) as [_ Hsame].
  { exists (bound_conn "p1"). vm_compute. repeat split; congruence. }
  specialize (Hsame eq_refl).
  assert (position <$> players (gameState
            (handle (PlayerUpdate "s1" (1, 2, 3) (0, 0, 0))
               (run join_then_leave initialWorld).1).1) !! "p1"
          = Some (1, 2, 3)) as Hnew by (vm_compute; reflexivity).
  assert (position <$> players (gameState (run join_then_leave initialWorld).1) !! "p1"
          = Some (-15, 5, 0)) as Hold by (vm_compute; reflexivity).
  rewrite Hsame, Hold in Hnew. discriminate Hnew.
Qed.

(** C7 (amended). [playerUpdate] requires only that the caller's bound player
    exists: active or not, its position and rotation are overwritten in
    place, every other player and every other field of the state (status,
    scores, queen flags, snail, berries) is kept, and the only message is
    the position update to the other sessions.  When the connection carries
    no id, or [gameState.players[id]] finds nothing for its id, nothing
    changes and nothing is sent. *)
Theorem playerUpdate_spec (w : World) (s : SocketId) (c : Conn) (pos rot : Vec3) :
  conns w !! s = Some c → connected c = true →
  let r := handle (PlayerUpdate s pos rot) w in
  let g := gameState w in
  (∀ pid p, playerId c = Some pid → pid ≠ ""%string → players g !! pid = Some p →
     gameState r.1 = set_players (<[pid := set_pose pos rot p]> (players g)) g
     ∧ conns r.1 = conns w ∧ timers r.1 = timers w
     ∧ inherited r.1 = inherited w
     ∧ r.2 = [(ToOthers s, playerPositionUpdate pid pos rot)])
  ∧ ((∀ pid, playerId c = Some pid → pid = ""%string ∨ lookup_player w pid = None) →
     r = (w, [])).
Proof.
  intros Hc Hon. cbn [handle]. rewrite (on_socket_connected _ _ _ _ Hc Hon).
  unfold playerUpdate. split.
  - intros pid p Hid Hne Hp.
    rewrite (bound_player_Some _ _ _ _ Hid Hne Hp). cbn.
    repeat split. f_equal.
    apply map_eq. intros j. rewrite lookup_alter, lookup_insert.
    destruct (decide (pid = j)) as [->|]; [by rewrite Hp|done].
  - intros Hnone. by rewrite (bound_player_None _ _ Hnone).
Qed.

(** The same update, by the theorem. *)
Lemma playerUpdate_spec_witness :
  let w := (run join_then_leave initialWorld).1 in
  let r := handle (PlayerUpdate "s1" (1, 2, 3) (0, 0, 0)) w in
  let p := set_isActive false (joined "p1" blue queen) in
  conns w !! "s1" = Some (bound_conn "p1")
  ∧ players (gameState w) !! "p1" = Some p
  ∧ gameState r.1
    = set_players (<["p1" := set_pose (1, 2, 3) (0, 0, 0) p]> (players (gameState w)))
        (gameState w)
  ∧ r.2 = [(ToOthers "s1", playerPositionUpdate "p1" (1, 2, 3) (0, 0, 0))].
Proof.
  assert (conns (run join_then_leave initialWorld).1 !! "s1"
          = Some (bound_conn "p1")) as Hc by (vm_compute; reflexivity).
  assert (players (gameState (run join_then_leave initialWorld).1) !! "p1"
          = Some (set_isActive false (joined "p1" blue queen))) as Hp
    by (vm_compute; reflexivity).
  split; [exact Hc|]. split; [exact Hp|].
  destruct (proj1 (playerUpdate_spec _ "s1" _ (1, 2, 3) (0, 0, 0) Hc eq_refl)
              "p1" _ eq_refl ltac:(discriminate) Hp) as (Hg & _ & _ & _ & Hm).
  split; [exact Hg | exact Hm].
Defined.

(** ** reconnectPlayer with an unknown id *)

(** C8 (defect of the code). One player is in the roster and a second
    connection presents the id ["constructor"], which is no player.  The
    test [gameState.players[playerId]] finds [Object.prototype.constructor],
    so the existing-id branch runs instead of the fallback: the connection
    is bound to that name, no player is created, the game does not start,
    and the caller gets the state twice and no [playerAssigned].  A
    [joinGame] would have made it the gold queen. *)
Theorem reconnect_inherited_name_is_no_join :
  let w := (run one_joined_one_idle initialWorld).1 in
  let r := handle (ReconnectPlayer "s2" "constructor" "p2") w in
  let j := joinGame "s2" "p2" w fresh_conn in
  conns w !! "s2" = Some fresh_conn
  ∧ players (gameState w) !! "constructor" = None
  ∧ gameState r.1 = gameState w
  ∧ conns r.1 !! "s2" = Some (bound_conn "constructor")
  ∧ r.2 = [(ToSocket "s2", gameStateMsg (gameState w));
           (ToAll, gameStateMsg (gameState w))]
  ∧ players (gameState j.1) !! "p2" = Some (joined "p2" gold queen)
  ∧ j.2 = [(ToSocket "s2", playerAssigned "p2" gold queen);
           (ToAll, gameStateMsg (gameState j.1))]
  ∧ r ≠ j.
Proof.
  cbv zeta. do 7 (split; [vm_compute; reflexivity|]).
  intros Heq.
  assert (playerId <$> conns (joinGame "s2" "p2" (run one_joined_one_idle initialWorld).1
                                fresh_conn).1 !! "s2" = Some (Some "p2"%string)) as Hj
    by (vm_compute; reflexivity).
  assert (playerId <$> conns (handle (ReconnectPlayer "s2" "constructor" "p2")
                                (run one_joined_one_idle initialWorld).1).1 !! "s2"
          = Some (Some "constructor"%string)) as Hr
    by (vm_compute; reflexivity).
  rewrite Heq, Hj in Hr. discriminate Hr.
Qed.

(** ** Sessions per player *)

(** Two open connections end up bound to the same player. *)
Lemma session_unique_counterexample : ¬ session_unique_claimed second_tab.
Proof.
  intros H.
  assert (fresh_trace initialWorld second_tab = true) as Hf
    by (vm_compute; reflexivity).
  apply (H Hf "s1" "s2" (bound_conn "p1") (bound_conn "p1") "p1");
    [discriminate | vm_compute; reflexivity..].
Qed.

Lemma fresh_uuid_unbound (w : World) (u : string) (s : SocketId) (c : Conn) :
  fresh_uuid w u = true → conns w !! s = Some c → playerId c ≠ Some u.
Proof.
  unfold fresh_uuid. rewrite !andb_true_iff. intros [[_ H] _] Hc.
  rewrite forallb_forall in H.
  specialize (H (s, c)). cbn in H.
  apply negb_true_iff, bool_decide_eq_false in H; [done|].
  apply list_elem_of_In, elem_of_map_to_list. done.
Qed.

Lemma bound_elsewhere_false (w : World) (s s' : SocketId) (pid : string) (c' : Conn) :
  bound_elsewhere w s pid = false → conns w !! s' = Some c' → s' ≠ s →
  connected c' = true → playerId c' ≠ Some pid.
Proof.
  unfold bound_elsewhere. intros H Hc Hne Hon Hid.
  apply not_true_iff_false in H. apply H.
  apply existsb_exists. exists (s', c'). split.
  - apply list_elem_of_In, elem_of_map_to_list. done.
  - cbn. rewrite Hon, bool_decide_eq_false_2, bool_decide_eq_true_2 by done. done.
Qed.

Lemma lookup_player_inherited (w : World) (k : string) (v : Found) :
  lookup_player w k = Some v → (∀ p, v ≠ Entry p) →
  players (gameState w) !! k = None ∧ k ∈ reserved_names.
Proof.
  unfold lookup_player, reserved_names. intros Hl Hv.
  destruct (players (gameState w) !! k) as [p|]; [simplify_eq; by destruct (Hv p)|].
  split; [done|]. rewrite elem_of_app, !elem_of_cons.
  repeat case_bool_decide; try tauto. done.
Qed.

Lemma lookup_player_None (w : World) (k : string) :
  lookup_player w k = None → players (gameState w) !! k = None.
Proof. unfold lookup_player. by destruct (players (gameState w) !! k). Qed.

(** What a lookup result says about the roster. *)
Ltac lookup_hyps :=
  repeat match goal with
         | H : lookup_player _ _ = Some (Entry _) |- _ =>
             apply lookup_player_own in H
         | H : lookup_player _ _ = Some Inherited |- _ =>
             apply lookup_player_inherited in H as [H _]; [|done]
         | H : lookup_player _ _ = Some InheritedTrue |- _ =>
             apply lookup_player_inherited in H as [H _]; [|done]
         | H : lookup_player _ _ = None |- _ =>
             apply lookup_player_None in H
         end.

Lemma unique_on_roster (m m' : gmap string Player) (cs : gmap SocketId Conn) :
  (∀ k, m !! k = None → m' !! k = None) → unique_on m cs → unique_on m' cs.
Proof.
  intros Hm Hu s1 s2 c1 c2 pid Hne H1 H2 Hon1 Hon2 Hp1 Hp2.
  destruct (Hu s1 s2 c1 c2 pid) as [Hnone Hres]; try done. split; [by apply Hm|done].
Qed.

Lemma unique_on_idle (m : gmap string Player) (cs : gmap SocketId Conn) (s : SocketId) (c : Conn) :
  playerId c = None ∨ connected c = false →
  unique_on m cs → unique_on m (<[s := c]> cs).
Proof.
  intros Hidle Hu s1 s2 c1 c2 pid Hne H1 H2 Hon1 Hon2 Hp1 Hp2.
  rewrite lookup_insert in H1, H2.
  repeat case_decide; simplify_eq;
    try (destruct Hidle; congruence).
  by eapply (Hu s1 s2).
Qed.

Lemma unique_on_bound
    (m : gmap string Player) (cs : gmap SocketId Conn) (s : SocketId) (c : Conn) (pid : string) :
  playerId c = Some pid →
  (∀ s' c', cs !! s' = Some c' → s' ≠ s → connected c' = true →
            playerId c' = Some pid → m !! pid = None ∧ pid ∈ reserved_names) →
  unique_on m cs → unique_on m (<[s := c]> cs).
Proof.
  intros Hc Hother Hu s1 s2 c1 c2 pid' Hne H1 H2 Hon1 Hon2 Hp1 Hp2.
  rewrite lookup_insert in H1, H2.
  repeat case_decide; simplify_eq;
    first [ by eapply (Hu s1 s2)
          | eapply (Hother s1 c1); (done || congruence)
          | eapply (Hother s2 c2); (done || congruence) ].
Qed.

Lemma unique_on_cleared
    (m : gmap string Player) (cs : gmap SocketId Conn) (s : SocketId) (f : Conn → Conn) :
  (∀ c, playerId (f c) = None) →
  unique_on m cs → unique_on m (alter f s cs).
Proof.
  intros Hf Hu s1 s2 c1 c2 pid Hne H1 H2 Hon1 Hon2 Hp1 Hp2.
  rewrite lookup_alter in H1, H2.
  repeat case_decide; simplify_eq;
    first [ by eapply (Hu s1 s2)
          | destruct (cs !! s1); simplify_eq/=; by rewrite Hf in Hp1
          | destruct (cs !! s2); simplify_eq/=; by rewrite Hf in Hp2 ].
Qed.

Lemma unique_on_new_player
    (m : gmap string Player) (cs : gmap SocketId Conn) (u : string) (p : Player) :
  (∀ s' c', cs !! s' = Some c' → playerId c' ≠ Some u) →
  unique_on m cs → unique_on (<[u := p]> m) cs.
Proof.
  intros Hfree Hu s1 s2 c1 c2 pid Hne H1 H2 Hon1 Hon2 Hp1 Hp2.
  destruct (Hu s1 s2 c1 c2 pid) as [Hnone Hres]; try done. split; [|done].
  rewrite lookup_insert_ne; [done|]. intros <-. by eapply Hfree.
Qed.

Lemma alter_absent (f : Player → Player) (j : string) (m : gmap string Player) (k : string) :
  m !! k = None → alter f j m !! k = None.
Proof. intros H. rewrite lookup_alter. case_decide; subst; by rewrite H. Qed.

Lemma delete_absent (j : string) (m : gmap string Player) (k : string) :
  m !! k = None → delete j m !! k = None.
Proof. intros H. rewrite lookup_delete. by case_decide. Qed.

Lemma step_one_session (e : Event) (w : World) :
  fresh_event w e = true → exclusive_event w e = true →
  one_session_per_player w → one_session_per_player (handle e w).1.
Proof.
  unfold one_session_per_player. intros Hf Hx Hu.
  destruct e as [s|s u|s pos rot|s|s|s|s|s|s pid u|k|];
    cbn [fresh_event event_uuid exclusive_event] in Hf, Hx;
    cbn [handle]; unfold on_socket.
  - unfold connection. case_match; [done|].
    apply unique_on_idle; [by left|done].
  - unfold joinGame. repeat case_match; try done.
    cbn [fst set_conn conns set_gameState gameState].
    rewrite start_if_ready_players. cbn [set_players players].
    eapply unique_on_bound; [reflexivity| |].
    + intros s' c' Hc' _ _ Hid. by destruct (fresh_uuid_unbound w u s' c' Hf Hc').
    + apply unique_on_new_player; [|done].
      intros s' c' Hc'. by eapply fresh_uuid_unbound.
  - unfold playerUpdate. repeat case_match; try done;
      cbn [fst set_gameState store_pose set_inherited gameState conns set_players players];
      try done.
    eapply unique_on_roster; [|done]. intros k. apply alter_absent.
  - unfold collectBerry. by repeat case_match.
  - unfold moveSnail. by repeat case_match.
  - unfold attackQueen. by repeat case_match.
  - unfold disconnect. repeat case_match; try done;
      cbn [fst set_conn conns set_gameState setTimeout store_isActive set_inherited
           gameState set_players players];
      (apply unique_on_idle; [by right|]); try done.
    eapply unique_on_roster; [|done]. intros k. apply alter_absent.
  - unfold leaveGame. repeat case_match; try done;
      cbn [fst set_conn conns set_gameState setTimeout store_isActive set_inherited
           gameState set_players players]; try done.
    eapply unique_on_roster; [|done]. intros k. apply alter_absent.
  - unfold reconnectPlayer.
    destruct (conns w !! s) as [c|] eqn:Hc; [|done].
    destruct (connected c); [|done].
    destruct (if truthy (Some pid) then lookup_player w pid else None)
      as [[p| |]|] eqn:Hknown;
      cbn [fst set_conn conns set_gameState store_isActive set_inherited gameState
           set_players players].
    + assert (players (gameState w) !! pid = Some p) as Hp.
      { destruct (truthy (Some pid)); [|done]. by apply lookup_player_own. }
      rewrite Hp, bool_decide_eq_true_2 in Hx by eauto.
      cbn in Hx. apply negb_true_iff in Hx.
      eapply unique_on_bound; [reflexivity| |].
      * intros s' c' Hc' Hne Hon Hid.
        by destruct (bound_elsewhere_false w s s' pid c' Hx Hc' Hne Hon).
      * eapply unique_on_roster; [|done]. intros k. apply alter_absent.
    + eapply unique_on_bound; [reflexivity| |done].
      intros s' c' _ _ _ _. destruct (truthy (Some pid)); [|done].
      by eapply lookup_player_inherited.
    + eapply unique_on_bound; [reflexivity| |done].
      intros s' c' _ _ _ _. destruct (truthy (Some pid)); [|done].
      by eapply lookup_player_inherited.
    + rewrite start_if_ready_players. cbn [set_players players].
      eapply unique_on_bound; [reflexivity| |].
      * intros s' c' Hc' _ _ Hid. by destruct (fresh_uuid_unbound w u s' c' Hf Hc').
      * apply unique_on_new_player; [|done].
        intros s' c' Hc'. by eapply fresh_uuid_unbound.
  - unfold fireTimer. repeat case_match; try done;
      cbn [fst conns clearFired set_gameState gameState set_players players];
      try (eapply unique_on_roster; [|done]; intros k0; apply delete_absent).
    apply unique_on_cleared; [done|].
    eapply unique_on_roster; [|done]. intros k0. apply delete_absent.
  - unfold idleTick. case_match; [|done].
    cbn [fst set_gameState gameState conns initialGameState players].
    eapply unique_on_roster; [|done]. intros k _. apply lookup_empty.
Qed.

Lemma run_one_session (evs : list Event) (w : World) :
  fresh_trace w evs = true → exclusive_reconnects w evs = true →
  one_session_per_player w → one_session_per_player (run evs w).1.
Proof.
  intros Hf Hx.
  apply (run_invariant (λ w e, fresh_event w e && exclusive_event w e)).
  - intros e w0 Hok. apply andb_true_iff in Hok as [H1 H2].
    by apply step_one_session.
  - by apply trace_ok_both.
Qed.

(** C9 (amended). From the initial world, any sequence of connections,
    [joinGame], [leaveGame], [disconnect], gameplay events, timer firings
    and [reconnectPlayer] calls leaves every player of the roster bound to
    at most one connected socket, provided that each [reconnectPlayer]
    naming a roster id is issued while no other connected socket is bound to
    that id (and [uuidv4] returns unused ids): an id that two connected
    sockets share is no roster key. *)
Theorem sessions_unique_if_exclusive (evs : list Event) :
  fresh_trace initialWorld evs = true →
  exclusive_reconnects initialWorld evs = true →
  one_session_per_player (run evs initialWorld).1.
Proof.
  intros Hf Hx. apply (run_one_session evs initialWorld Hf Hx).
  intros s1 s2 c1 c2 pid _ H1. cbn [initialWorld conns] in H1.
  by rewrite lookup_empty in H1.
Qed.

(** A drop, a reconnection from a new socket, a leave and a stale id: every
    reconnection is exclusive and no player has two sessions. *)
Lemma sessions_unique_if_exclusive_witness :
  one_session_per_player (run drop_and_return initialWorld).1
  ∧ (playerId <$> conns (run drop_and_return initialWorld).1 !! "s3") = Some (Some "p1")
  ∧ (playerId <$> conns (run drop_and_return initialWorld).1 !! "s4") = Some (Some "p4").
Proof.
  split; [|split; vm_compute; reflexivity].
  apply (sessions_unique_if_exclusive drop_and_return); vm_compute; reflexivity.
Defined.

(** ** Bindings made by the handlers *)


Lemma fresh_uuid_nonempty (w : World) (u : string) :
  fresh_uuid w u = true → u ≠ ""%string.
Proof.
  unfold fresh_uuid. rewrite !andb_true_iff. intros [[[H _] _] _].
  by apply negb_true_iff, bool_decide_eq_false in H.
Qed.

Lemma fresh_uuid_untimed (w : World) (u : string) (k : nat) (t : Timer) :
  fresh_uuid w u = true → timers w !! k = Some t → timer_pid t ≠ Some u.
Proof.
  unfold fresh_uuid. rewrite !andb_true_iff. intros [_ H] Hk.
  rewrite forallb_forall in H.
  specialize (H (k, t)). cbn in H.
  apply negb_true_iff, bool_decide_eq_false in H; [done|].
  apply list_elem_of_In, elem_of_map_to_list. done.
Qed.

Lemma step_bound_wf (e : Event) (w : World) :
  fresh_event w e = true → bound_wf w → bound_wf (handle e w).1.
Proof.
  unfold bound_wf. intros Hf Hwf s0 c0 pid0.
  destruct e as [s|s u|s pos rot|s|s|s|s|s|s pid u|k|];
    cbn [fresh_event event_uuid] in Hf; cbn [handle]; unfold on_socket.
  - unfold connection. case_match; [apply Hwf|].
    cbn [fst set_conn conns]. rewrite lookup_insert.
    case_decide; [intros; simplify_eq/=|apply Hwf].
  - unfold joinGame. repeat case_match; try apply Hwf.
    cbn [fst set_conn conns set_gameState]. rewrite lookup_insert.
    case_decide; [|apply Hwf]. intros; simplify_eq/=.
    split; [done|]. by eapply fresh_uuid_nonempty.
  - unfold playerUpdate. repeat case_match; apply Hwf.
  - unfold collectBerry. repeat case_match; apply Hwf.
  - unfold moveSnail. repeat case_match; apply Hwf.
  - unfold attackQueen. repeat case_match; apply Hwf.
  - unfold disconnect. repeat case_match; try apply Hwf;
      cbn [fst set_conn conns set_gameState setTimeout store_isActive set_inherited];
      rewrite lookup_insert; (case_decide; [|apply Hwf]);
      intros; simplify_eq/=; by eapply Hwf.
  - unfold leaveGame. repeat case_match; apply Hwf.
  - unfold reconnectPlayer.
    destruct (conns w !! s) as [c|] eqn:Hc; [|apply Hwf].
    destruct (connected c); [|apply Hwf].
    destruct (truthy (Some pid)) eqn:Htr.
    + assert (pid ≠ ""%string) as Hne.
      { unfold truthy in Htr. by apply negb_true_iff, bool_decide_eq_false in Htr. }
      destruct (lookup_player w pid) as [[p| |]|];
        cbn [fst set_conn conns set_gameState store_isActive set_inherited];
        rewrite lookup_insert; (case_decide; [|apply Hwf]);
        intros; simplify_eq/=; (split; [done|]);
        first [done | by eapply fresh_uuid_nonempty].
    + cbn [fst set_conn conns set_gameState]. rewrite lookup_insert.
      case_decide; [|apply Hwf]. intros; simplify_eq/=.
      split; [done|]. by eapply fresh_uuid_nonempty.
  - unfold fireTimer. repeat case_match; try apply Hwf.
    cbn [fst conns clearFired]. rewrite lookup_alter.
    case_decide; [|apply Hwf]. subst.
    destruct (conns w !! s0); intros; simplify_eq/=.
  - unfold idleTick. case_match; apply Hwf.
Qed.

Lemma run_bound_wf (evs : list Event) (w : World) :
  fresh_trace w evs = true → bound_wf w → bound_wf (run evs w).1.
Proof. apply run_invariant. apply step_bound_wf. Qed.

(** ** After the idle reset *)

(** C10 (defect of the code). The worker of the scenario has won, and one
    more connection has presented the id ["__proto__"], for which
    [gameState.players[playerId]] finds [Object.prototype]: the connection is
    bound to that name.  The idle reset installs the initial state, in which
    the name is no roster key.  The connection is nevertheless not reduced
    to silence: its [playerUpdate] is broadcast to the other sessions, and
    its [leaveGame] broadcasts the state and schedules a leave sweep. *)
Theorem idle_reset_spares_inherited_binding :
  let w := (run inherited_binding initialWorld).1 in
  let w1 := (handle IdleTick w).1 in
  status (gameState w) = ended
  ∧ conns w !! "s9" = Some (bound_conn "__proto__")
  ∧ gameState w1 = initialGameState
  ∧ conns w1 !! "s9" = Some (bound_conn "__proto__")
  ∧ players (gameState w1) !! "__proto__" = None
  ∧ (handle (PlayerUpdate "s9" (1, 2, 3) (0, 0, 0)) w1).2
    = [(ToOthers "s9", playerPositionUpdate "__proto__" (1, 2, 3) (0, 0, 0))]
  ∧ (handle (LeaveGame "s9") w1).2 = [(ToAll, gameStateMsg initialGameState)]
  ∧ timers (handle (LeaveGame "s9") w1).1 !! nextTimer w1
    = Some (LeaveSweep "s9" "__proto__").
Proof. cbv zeta. repeat split; vm_compute; reflexivity. Qed.

(** * Further properties of the server *)

(** ** Ranges and status *)

Lemma trace_ok_true (evs : list Event) (w : World) :
  trace_ok (λ _ _, true) w evs = true.
Proof.
  revert w. induction evs as [|e evs IH]; intros w; [done|].
  cbn [trace_ok andb]. rewrite IH. apply orb_true_r.
Qed.

Lemma step_counters_in_range (e : Event) (w : World) :
  counters_in_range (gameState w) → counters_in_range (gameState (handle e w).1).
Proof.
  unfold counters_in_range. intros Hin.
  destruct e; step_cases; try done;
    repeat match goal with
           | H : bool_decide _ = _ |- _ => clear H
           end;
    unfold berry_incr; try destruct (team _);
    cbn [berry_blue berry_gold]; lia.
Qed.

Lemma size_alter (f : Player → Player) (k : string) (m : gmap string Player) :
  size (alter f k m) = size m.
Proof. by rewrite <-!size_dom, dom_alter_L. Qed.

Lemma size_delete_le (k : string) (m : gmap string Player) :
  (size (delete k m) ≤ size m)%nat.
Proof. rewrite map_size_delete. destruct (m !! k); cbn; lia. Qed.

Lemma step_status_consistent (e : Event) (w : World) :
  status_consistent (gameState w) → status_consistent (gameState (handle e w).1).
Proof.
  unfold status_consistent, win_condition. intros (Hs & Hw & Hwin).
  assert (status (gameState w) = ended
          ∨ ¬ (12 ≤ berry_blue (berryCount (gameState w))
               ∨ 12 ≤ berry_gold (berryCount (gameState w))
               ∨ 3 ≤ blueScore (gameState w) ∨ 3 ≤ goldScore (gameState w)
               ∨ snailPosition (gameState w) ≤ 0
               ∨ 100 ≤ snailPosition (gameState w))) as Hcase.
  { destruct (decide (12 ≤ berry_blue (berryCount (gameState w))
               ∨ 12 ≤ berry_gold (berryCount (gameState w))
               ∨ 3 ≤ blueScore (gameState w) ∨ 3 ≤ goldScore (gameState w)
               ∨ snailPosition (gameState w) ≤ 0
               ∨ 100 ≤ snailPosition (gameState w))); auto. }
  clear Hwin.
  destruct e; step_cases; try done; decide_hyps;
    rewrite ?length_keys, ?size_alter, ?map_size_empty in *;
    repeat match goal with
           | |- context [size (delete ?k ?m)] =>
               pose proof (size_delete_le k m);
               generalize dependent (size (delete k m)); intros
           end;
    unfold berry_incr in *; try destruct (team _);
    cbn [berry_get berry_blue berry_gold] in *;
    split_and!; intros;
    try match goal with
        | H : status (gameState w) = waiting |- _ => pose proof (Hw H)
        end;
    destruct Hcase;
    first [ done | congruence | lia | (exfalso; lia) ].
Qed.

Lemma initial_status_consistent : status_consistent initialGameState.
Proof.
  unfold status_consistent, win_condition. cbn. split_and!; [done| |lia].
  intros _. rewrite map_size_empty. lia.
Qed.

(** X1. In every world the server can reach, the snail position is between
    0 and 100 and the two scores and the two berry counts are not negative. *)
Theorem reachable_counters_in_range (evs : list Event) :
  counters_in_range (gameState (run evs initialWorld).1).
Proof.
  apply (run_invariant (λ _ _, true) (λ w, counters_in_range (gameState w))).
  - intros e w _. apply step_counters_in_range.
  - apply trace_ok_true.
  - unfold counters_in_range. cbn. lia.
Qed.

(** X2. In every world the server can reach, the status is never
    [starting], and a waiting game has at most one player in its roster. *)
Theorem reachable_waiting_alone (evs : list Event) :
  let g := gameState (run evs initialWorld).1 in
  status g ≠ starting ∧ (status g = waiting → (size (players g) ≤ 1)%nat).
Proof.
  cbv zeta.
  pose proof (run_invariant (λ _ _, true) (λ w, status_consistent (gameState w))
                (λ e w _, step_status_consistent e w) evs initialWorld
                (trace_ok_true _ _) initial_status_consistent) as (H1 & H2 & _).
  done.
Qed.

(** X3. In every world the server can reach, whenever a victory is on the
    board (twelve berries, three kills, or the snail at 0 or 100) the status
    is [ended]. *)
Theorem reachable_win_is_ended (evs : list Event) :
  let g := gameState (run evs initialWorld).1 in
  win_condition g → status g = ended.
Proof.
  cbv zeta.
  pose proof (run_invariant (λ _ _, true) (λ w, status_consistent (gameState w))
                (λ e w _, step_status_consistent e w) evs initialWorld
                (trace_ok_true _ _) initial_status_consistent) as (_ & _ & H).
  done.
Qed.

(** A lone first player waits; the worker's twelve berries end the game. *)
Lemma reachable_waiting_alone_witness :
  let g := gameState (run [Connection "s1"; JoinGame "s1" "p1"] initialWorld).1 in
  status g = waiting ∧ (size (players g) ≤ 1)%nat.
Proof.
  assert (status (gameState (run [Connection "s1"; JoinGame "s1" "p1"]
                               initialWorld).1) = waiting) as Hw
    by (vm_compute; reflexivity).
  split; [exact Hw|].
  exact (proj2 (reachable_waiting_alone [Connection "s1"; JoinGame "s1" "p1"]) Hw).
Defined.

Lemma reachable_win_is_ended_witness :
  let g := gameState (run twelve_berries initialWorld).1 in
  win_condition g ∧ status g = ended.
Proof.
  assert (win_condition (gameState (run twelve_berries initialWorld).1)) as Hwin.
  { left. vm_compute. discriminate. }
  split; [exact Hwin|].
  exact (reachable_win_is_ended twelve_berries Hwin).
Defined.

(** ** The status only moves forward *)

(** X4. No event moves the status backwards (waiting, playing, ended), with
    one exception: the idle tick on an ended game, which sets it to waiting. *)
Theorem status_moves_forward (e : Event) (w : World) :
  let st := status (gameState w) in
  let st' := status (gameState (handle e w).1) in
  (status_rank st ≤ status_rank st')%nat
  ∨ (e = IdleTick ∧ st = ended ∧ st' = waiting).
Proof.
  cbv zeta.
  destruct e; step_cases; decide_hyps; auto;
    destruct (status (gameState w)); cbn; auto; try lia; try done.
Qed.

(** ** Roster entries *)

Lemma step_keyed_by_id (e : Event) (w : World) :
  keyed_by_id (players (gameState w)) →
  keyed_by_id (players (gameState (handle e w).1)).
Proof.
  unfold keyed_by_id. intros Hk k p.
  destruct e; step_cases; try apply Hk;
    rewrite ?lookup_insert, ?lookup_alter, ?lookup_delete, ?lookup_empty;
    repeat case_decide; subst; try apply Hk; try done;
    try (intros [= <-]; done);
    try (destruct (players (gameState w) !! k) eqn:Hl; cbn; [|done];
         intros [= <-]; cbn; by eapply Hk).
Qed.

(** X5. In every world the server can reach, each roster entry's [id] field
    is the key it is stored under. *)
Theorem reachable_keyed_by_id (evs : list Event) (k : string) (p : Player) :
  players (gameState (run evs initialWorld).1) !! k = Some p → id p = k.
Proof.
  revert k p.
  apply (run_invariant (λ _ _, true) (λ w, keyed_by_id (players (gameState w)))).
  - intros e w _. apply step_keyed_by_id.
  - apply trace_ok_true.
  - intros k p H. cbn in H. by rewrite lookup_empty in H.
Qed.

Lemma reachable_keyed_by_id_witness :
  players (gameState (run scenario_joins initialWorld).1) !! "p3"
  = Some (joined "p3" blue worker)
  ∧ id (joined "p3" blue worker) = "p3"%string.
Proof.
  assert (players (gameState (run scenario_joins initialWorld).1) !! "p3"
          = Some (joined "p3" blue worker)) as H by (vm_compute; reflexivity).
  split; [exact H|].
  exact (reachable_keyed_by_id scenario_joins "p3" _ H).
Defined.

(** X6. No event changes the id, the team or the role of a player that is
    in the roster before and after it ([uuidv4] returning an unused id). *)
Theorem step_keeps_identity (e : Event) (w : World) (pid : string) (p p' : Player) :
  fresh_event w e = true →
  players (gameState w) !! pid = Some p →
  players (gameState (handle e w).1) !! pid = Some p' →
  id p' = id p ∧ team p' = team p ∧ role p' = role p.
Proof.
  intros Hf Hp.
  assert (∀ u, event_uuid e = Some u → u ≠ pid) as Hu.
  { intros u He ->. unfold fresh_event in Hf. rewrite He in Hf.
    apply fresh_uuid_absent in Hf. congruence. }
  destruct e; cbn [event_uuid] in Hu; step_cases;
    rewrite ?lookup_insert, ?lookup_alter, ?lookup_delete, ?lookup_empty;
    repeat case_decide; subst; rewrite ?Hp; cbn;
    try (intros; simplify_eq; done);
    try (exfalso; by eapply Hu).
Qed.

Lemma step_keeps_identity_witness :
  let w := (run join_then_leave initialWorld).1 in
  let e := PlayerUpdate "s1" (1, 2, 3) (0, 0, 0) in
  let p' := set_pose (1, 2, 3) (0, 0, 0) (set_isActive false (joined "p1" blue queen)) in
  players (gameState w) !! "p1" = Some (set_isActive false (joined "p1" blue queen))
  ∧ players (gameState (handle e w).1) !! "p1" = Some p'
  ∧ team p' = team (set_isActive false (joined "p1" blue queen)).
Proof.
  assert (players (gameState (run join_then_leave initialWorld).1) !! "p1"
          = Some (set_isActive false (joined "p1" blue queen))) as Hp
    by (vm_compute; reflexivity).
  assert (players (gameState (handle (PlayerUpdate "s1" (1, 2, 3) (0, 0, 0))
                                (run join_then_leave initialWorld).1).1) !! "p1"
          = Some (set_pose (1, 2, 3) (0, 0, 0)
                    (set_isActive false (joined "p1" blue queen)))) as Hp'
    by (vm_compute; reflexivity).
  split; [exact Hp|]. split; [exact Hp'|].
  exact (proj1 (proj2 (step_keeps_identity (PlayerUpdate "s1" (1, 2, 3) (0, 0, 0))
                         _ "p1" _ _ eq_refl Hp Hp'))).
Defined.

(** ** Broadcasts *)

(** X7. Every [gameState] message a handler sends, to whomever, carries the
    state as the handler leaves it. *)
Theorem broadcast_is_final_state (e : Event) (w : World) (a : Audience) (g : GameState) :
  (a, gameStateMsg g) ∈ (handle e w).2 → g = gameState (handle e w).1.
Proof.
  destruct e; step_cases; intros Hin; in_list Hin.
Qed.

Lemma broadcast_is_final_state_witness :
  let w := (run twelve_berries initialWorld).1 in
  let r := handle (CollectBerry "s3") w in
  let g := set_status ended
             (set_berryCount (berry_incr blue (berryCount (gameState w))) (gameState w)) in
  (ToAll, gameStateMsg g) ∈ r.2 ∧ g = gameState r.1.
Proof.
  assert ((handle (CollectBerry "s3") (run twelve_berries initialWorld).1).2
          = [(ToAll, gameOver blue economic);
             (ToAll, gameStateMsg
                (set_status ended
                   (set_berryCount
                      (berry_incr blue
                         (berryCount (gameState (run twelve_berries initialWorld).1)))
                      (gameState (run twelve_berries initialWorld).1))))]) as Hr
    by (vm_compute; reflexivity).
  assert ((ToAll, gameStateMsg
             (set_status ended
                (set_berryCount
                   (berry_incr blue
                      (berryCount (gameState (run twelve_berries initialWorld).1)))
                   (gameState (run twelve_berries initialWorld).1))))
          ∈ (handle (CollectBerry "s3") (run twelve_berries initialWorld).1).2) as Hin.
  { rewrite Hr. apply elem_of_cons. right. apply elem_of_cons. by left. }
  split; [exact Hin|].
  exact (broadcast_is_final_state _ _ _ _ Hin).
Defined.

(** X8. An event either leaves the [GameState] as it was, or is a
    [playerUpdate] (answered with the position update only), or ends by
    sending the new state to every session. *)
Theorem change_is_broadcast (e : Event) (w : World) :
  let r := handle e w in
  gameState r.1 = gameState w
  ∨ is_playerUpdate e = true
  ∨ last r.2 = Some (ToAll, gameStateMsg (gameState r.1)).
Proof.
  cbv zeta. destruct e; step_cases; auto.
Qed.

(** X9. A [playerAssigned] message goes to the socket that asked, and what
    it says is what the server has recorded: the roster holds an active
    player under that id with that team and role at the team's spawn
    position, and the socket is bound to the id. *)
Theorem assignment_matches_roster
    (e : Event) (w : World) (a : Audience) (pid : string) (t : Team) (r : Role) :
  (a, playerAssigned pid t r) ∈ (handle e w).2 →
  ∃ s, a = ToSocket s
       ∧ (e = JoinGame s pid ∨ ∃ old, e = ReconnectPlayer s old pid)
       ∧ players (gameState (handle e w).1) !! pid
         = Some {| id := pid; position := spawn t; rotation := (0, 0, 0);
                   team := t; role := r; isActive := true |}
       ∧ conns (handle e w).1 !! s
         = Some {| hasJoined := true; playerId := Some pid; connected := true |}.
Proof.
  destruct e; step_cases; intros Hin; in_list Hin;
    eexists; (split; [reflexivity|]); (split; [eauto|]);
    rewrite !lookup_insert_eq;
    repeat match goal with H : connected _ = true |- _ => rewrite H end; done.
Qed.

(** X10. While [gameState.players[id]] finds nothing for the id a connection
    carries (it never joined, its id is empty, or its id is stale and no
    name that the roster object inherits), its [playerUpdate],
    [collectBerry], [moveSnail], [attackQueen] and [leaveGame] change
    nothing and send nothing, and its [disconnect] changes no game state,
    schedules no timer and sends nothing. *)
Theorem unbound_events_ignored (w : World) (s : SocketId) (c : Conn) :
  conns w !! s = Some c →
  (∀ pid, playerId c = Some pid → pid = ""%string ∨ lookup_player w pid = None) →
  (∀ e, player_event s e → handle e w = (w, []))
  ∧ gameState (handle (Disconnect s) w).1 = gameState w
  ∧ timers (handle (Disconnect s) w).1 = timers w
  ∧ inherited (handle (Disconnect s) w).1 = inherited w
  ∧ (handle (Disconnect s) w).2 = [].
Proof.
  intros Hc Hnone. pose proof (bound_player_None c w Hnone) as Hb. split.
  - intros e He. destruct He; cbn [handle]; unfold on_socket;
      rewrite Hc; destruct (connected c); try done;
      unfold playerUpdate, collectBerry, moveSnail, attackQueen, leaveGame;
      cbv zeta; by rewrite Hb.
  - cbn [handle]. unfold on_socket. rewrite Hc.
    destruct (connected c); [|done]. unfold disconnect. cbv zeta. by rewrite Hb.
Qed.

Lemma joined_guard (w : World) (s : SocketId) (u : string) (c : Conn) :
  conns (handle (JoinGame s u) w).1 !! s = Some c → connected c = true →
  hasJoined c || truthy (playerId c) = true.
Proof.
  cbn [handle]. unfold on_socket, joinGame.
  destruct (conns w !! s) as [c0|] eqn:Hc; cbn [fst]; [|congruence].
  destruct (connected c0) eqn:Hon; cbn [fst]; [|congruence].
  destruct (hasJoined c0 || truthy (playerId c0)) eqn:Hg; cbn [fst].
  - intros H _. by simplify_eq.
  - cbn [set_conn conns]. rewrite lookup_insert_eq. intros H _. by simplify_eq.
Qed.

(** X11. A [joinGame] that directly follows a [joinGame] of the same
    connection is ignored: the world stays as the first one left it and
    nothing is sent. *)
Theorem second_join_ignored (w : World) (s : SocketId) (u1 u2 : string) :
  handle (JoinGame s u2) (handle (JoinGame s u1) w).1
  = ((handle (JoinGame s u1) w).1, []).
Proof.
  pose proof (joined_guard w s u1) as Hg.
  set (w1 := (handle (JoinGame s u1) w).1) in *.
  change (on_socket s w1 (joinGame s u2 w1) = (w1, [])).
  unfold on_socket.
  destruct (conns w1 !! s) as [c|]; [|done].
  destruct (connected c) eqn:Hon; [|done].
  unfold joinGame. by rewrite (Hg c eq_refl Hon).
Qed.

Lemma assignment_matches_roster_witness :
  let w := (run [Connection "s1"] initialWorld).1 in
  let e := JoinGame "s1" "p1" in
  (ToSocket "s1", playerAssigned "p1" blue queen) ∈ (handle e w).2
  ∧ ∃ s, ToSocket "s1" = ToSocket s
         ∧ (e = JoinGame s "p1" ∨ ∃ old, e = ReconnectPlayer s old "p1")
         ∧ players (gameState (handle e w).1) !! "p1"
           = Some {| id := "p1"; position := spawn blue; rotation := (0, 0, 0);
                     team := blue; role := queen; isActive := true |}
         ∧ conns (handle e w).1 !! s
           = Some {| hasJoined := true; playerId := Some "p1"; connected := true |}.
Proof.
  assert ((ToSocket "s1", playerAssigned "p1" blue queen)
          ∈ (handle (JoinGame "s1" "p1") (run [Connection "s1"] initialWorld).1).2)
    as Hin.
  { assert ((handle (JoinGame "s1" "p1") (run [Connection "s1"] initialWorld).1).2
            = [(ToSocket "s1", playerAssigned "p1" blue queen);
               (ToAll, gameStateMsg (gameState
                  (handle (JoinGame "s1" "p1")
                     (run [Connection "s1"] initialWorld).1).1))]) as Hr
      by (vm_compute; reflexivity).
    rewrite Hr. apply elem_of_cons. by left. }
  split; [exact Hin|].
  exact (assignment_matches_roster _ _ _ _ _ _ Hin).
Defined.

(** After the reset the winner's id is stale: its berries are ignored. *)
Lemma unbound_events_ignored_witness :
  let w := (handle IdleTick (run twelve_berries initialWorld).1).1 in
  conns w !! "s3" = Some (bound_conn "p3")
  ∧ lookup_player w "p3" = None
  ∧ handle (CollectBerry "s3") w = (w, [])
  ∧ (handle (Disconnect "s3") w).2 = [].
Proof.
  assert (conns (handle IdleTick (run twelve_berries initialWorld).1).1 !! "s3"
          = Some (bound_conn "p3")) as Hc by (vm_compute; reflexivity).
  assert (lookup_player (handle IdleTick (run twelve_berries initialWorld).1).1 "p3"
          = None) as Hl by (vm_compute; reflexivity).
  split; [exact Hc|]. split; [exact Hl|].
  assert (∀ pid, playerId (bound_conn "p3") = Some pid →
            pid = ""%string
            ∨ lookup_player (handle IdleTick (run twelve_berries initialWorld).1).1 pid
              = None) as Hnone.
  { intros pid [= <-]. right. exact Hl. }
  destruct (unbound_events_ignored _ "s3" (bound_conn "p3") Hc Hnone)
    as (Hev & _ & _ & _ & Hd).
  split; [exact (Hev _ (player_collectBerry "s3")) | exact Hd].
Defined.

(** ** Disconnecting, leaving and coming back *)

Lemma alter_present (f : Player → Player) (k : string) (m : gmap string Player) (p : Player) :
  m !! k = Some p → alter f k m = <[k := f p]> m.
Proof.
  intros Hk. apply map_eq. intros j. rewrite lookup_alter, lookup_insert.
  case_decide; [subst; by rewrite Hk|done].
Qed.

Lemma disconnect_bound (w : World) (s : SocketId) (pid : string) (p : Player) (c : Conn) :
  conns w !! s = Some c → connected c = true → playerId c = Some pid →
  pid ≠ ""%string → players (gameState w) !! pid = Some p →
  handle (Disconnect s) w
  = (let g1 := set_players (<[pid := set_isActive false p]> (players (gameState w)))
                 (gameState w) in
     (set_conn s {| hasJoined := hasJoined c; playerId := Some pid; connected := false |}
        (setTimeout (DisconnectSweep pid) (set_gameState g1 w)),
      [(ToAll, gameStateMsg g1)])).
Proof.
  intros Hc Hon Hid Hne Hp. cbn [handle]. unfold on_socket. rewrite Hc, Hon.
  unfold disconnect. cbv zeta.
  rewrite (bound_player_Some _ _ _ _ Hid Hne Hp), Hid.
  by rewrite (alter_present _ _ _ _ Hp).
Qed.

Lemma leave_bound (w : World) (s : SocketId) (pid : string) (p : Player) (c : Conn) :
  conns w !! s = Some c → connected c = true → playerId c = Some pid →
  pid ≠ ""%string → players (gameState w) !! pid = Some p →
  handle (LeaveGame s) w
  = (let g1 := set_players (<[pid := set_isActive false p]> (players (gameState w)))
                 (gameState w) in
     (setTimeout (LeaveSweep s pid) (set_gameState g1 w),
      [(ToAll, gameStateMsg g1)])).
Proof.
  intros Hc Hon Hid Hne Hp. cbn [handle]. unfold on_socket. rewrite Hc, Hon.
  unfold leaveGame. cbv zeta.
  rewrite (bound_player_Some _ _ _ _ Hid Hne Hp).
  by rewrite (alter_present _ _ _ _ Hp).
Qed.

Lemma fire_disconnect_sweep (w : World) (k : nat) (pid : string) (p : Player) :
  timers w !! k = Some (DisconnectSweep pid) →
  players (gameState w) !! pid = Some p →
  handle (TimerFires k) w
  = if negb (isActive p) then
      let g1 := set_players (delete pid (players (gameState w))) (gameState w) in
      (set_gameState g1 (clearFired k w), [(ToAll, gameStateMsg g1)])
    else (clearFired k w, []).
Proof.
  intros Hk Hp. cbn [handle]. unfold fireTimer.
  by rewrite Hk, (lookup_player_entry _ _ _ Hp).
Qed.

(** X12. [disconnect] of a bound connection marks its player inactive (and
    changes nothing else in the roster), closes the connection, schedules
    one sweep with delay 30000 and broadcasts; when the sweep fires with the
    player still inactive, the record is deleted and the state broadcast. *)
Theorem disconnect_then_sweep (w : World) (s : SocketId) (pid : string) (p : Player) :
  bound_to w s pid p →
  let r1 := handle (Disconnect s) w in
  let k := nextTimer w in
  let r2 := handle (TimerFires k) r1.1 in
  players (gameState r1.1) = <[pid := set_isActive false p]> (players (gameState w))
  ∧ timers r1.1 = <[k := DisconnectSweep pid]> (timers w)
  ∧ timer_delay (DisconnectSweep pid) = 30000
  ∧ connected <$> conns r1.1 !! s = Some false
  ∧ r1.2 = [(ToAll, gameStateMsg (gameState r1.1))]
  ∧ players (gameState r2.1) = delete pid (players (gameState w))
  ∧ r2.2 = [(ToAll, gameStateMsg (gameState r2.1))].
Proof.
  intros (c & Hc & Hon & Hid & Hne & Hp). cbv zeta.
  rewrite (disconnect_bound w s pid p c Hc Hon Hid Hne Hp). cbv zeta.
  cbn [fst snd set_conn setTimeout set_gameState gameState timers conns
       set_players players].
  rewrite lookup_insert_eq.
  do 5 (split; [done|]).
  erewrite (fire_disconnect_sweep _ (nextTimer w) pid (set_isActive false p));
    [|world_lookup..].
  cbn [isActive set_isActive negb fst snd set_conn setTimeout set_gameState
       gameState clearFired players set_players].
  by rewrite delete_insert_eq.
Qed.

Lemma reconnect_known (w : World) (s : SocketId) (c : Conn) (pid u : string) (p : Player) :
  conns w !! s = Some c → connected c = true →
  pid ≠ ""%string → players (gameState w) !! pid = Some p →
  handle (ReconnectPlayer s pid u) w
  = (let g1 := set_players (<[pid := set_isActive true p]> (players (gameState w)))
                 (gameState w) in
     (set_conn s {| hasJoined := true; playerId := Some pid; connected := true |}
        (set_gameState g1 w),
      [(ToSocket s, gameStateMsg g1); (ToAll, gameStateMsg g1)])).
Proof.
  intros Hc Hon Hne Hp. cbn [handle]. unfold on_socket. rewrite Hc, Hon.
  unfold reconnectPlayer. cbv zeta.
  rewrite (truthy_Some _ Hne), (lookup_player_entry _ _ _ Hp).
  by rewrite (alter_present _ _ _ _ Hp), Hon.
Qed.

(** X13. A player whose connection dropped and who comes back on another
    connection before the sweep fires is active again, with the record it
    had, and the new connection is bound to it; the sweep of the dropped
    connection then finds the player active, deletes nothing and sends
    nothing. *)
Theorem reconnect_defuses_sweep
    (w : World) (s s' : SocketId) (c' : Conn) (pid u : string) (p : Player) :
  bound_to w s pid p → s' ≠ s → conns w !! s' = Some c' → connected c' = true →
  let k := nextTimer w in
  let w1 := (handle (Disconnect s) w).1 in
  let w2 := (handle (ReconnectPlayer s' pid u) w1).1 in
  let r3 := handle (TimerFires k) w2 in
  players (gameState w2) = <[pid := set_isActive true p]> (players (gameState w))
  ∧ conns w2 !! s'
    = Some {| hasJoined := true; playerId := Some pid; connected := true |}
  ∧ timers w2 !! k = Some (DisconnectSweep pid)
  ∧ gameState r3.1 = gameState w2
  ∧ conns r3.1 = conns w2
  ∧ r3.2 = [].
Proof.
  intros (c & Hc & Hon & Hid & Hne & Hp) Hss Hc' Hon'. cbv zeta.
  rewrite (disconnect_bound w s pid p c Hc Hon Hid Hne Hp). cbv zeta. cbn [fst].
  erewrite (reconnect_known _ s' c' pid u (set_isActive false p));
    [|world_lookup..].
  cbv zeta.
  cbn [fst snd set_conn setTimeout set_gameState gameState timers conns
       set_players players nextTimer].
  rewrite insert_insert_eq, !lookup_insert_eq.
  do 3 (split; [done|]).
  erewrite (fire_disconnect_sweep _ (nextTimer w) pid (set_isActive true p));
    [|world_lookup..].
  cbn [isActive set_isActive negb fst snd clearFired gameState conns]. done.
Qed.

Lemma fire_leave_sweep
    (w : World) (k : nat) (s : SocketId) (pid : string) (p : Player) (c : Conn) :
  timers w !! k = Some (LeaveSweep s pid) →
  players (gameState w) !! pid = Some p → conns w !! s = Some c →
  handle (TimerFires k) w
  = (let g1 := set_players (delete pid (players (gameState w))) (gameState w) in
     ({| gameState := g1;
         conns := <[s := {| hasJoined := false; playerId := None;
                            connected := connected c |}]> (conns w);
         timers := delete k (timers w);
         nextTimer := nextTimer w;
         inherited := inherited w |},
      [(ToAll, gameStateMsg g1)])).
Proof.
  intros Hk Hp Hc. cbn [handle]. unfold fireTimer.
  rewrite Hk, (lookup_player_entry _ _ _ Hp).
  cbn [clearFired conns timers nextTimer]. cbv zeta. f_equal. f_equal.
  apply map_eq. intros j. rewrite lookup_alter, lookup_insert.
  case_decide; [subst; by rewrite Hc|done].
Qed.

(** X14. [leaveGame] followed by its sweep deletes the player's record,
    unbinds the connection and clears its joined flag; a [joinGame] of the
    same connection is then accepted like a first one. *)
Theorem leave_then_sweep_then_join
    (w : World) (s : SocketId) (pid u : string) (p : Player) :
  bound_to w s pid p →
  let k := nextTimer w in
  let w1 := (handle (LeaveGame s) w).1 in
  let r2 := handle (TimerFires k) w1 in
  players (gameState w1) = <[pid := set_isActive false p]> (players (gameState w))
  ∧ timers w1 = <[k := LeaveSweep s pid]> (timers w)
  ∧ timer_delay (LeaveSweep s pid) = 1000
  ∧ players (gameState r2.1) = delete pid (players (gameState w))
  ∧ conns r2.1 !! s
    = Some {| hasJoined := false; playerId := None; connected := true |}
  ∧ r2.2 = [(ToAll, gameStateMsg (gameState r2.1))]
  ∧ handle (JoinGame s u) r2.1
    = joinGame s u r2.1 {| hasJoined := false; playerId := None; connected := true |}.
Proof.
  intros (c & Hc & Hon & Hid & Hne & Hp). cbv zeta.
  rewrite (leave_bound w s pid p c Hc Hon Hid Hne Hp). cbv zeta.
  cbn [fst snd setTimeout set_gameState gameState timers conns
       set_players players].
  do 3 (split; [done|]).
  erewrite (fire_leave_sweep _ (nextTimer w) s pid (set_isActive false p) c);
    [|world_lookup..].
  cbv zeta.
  cbn [fst snd setTimeout set_gameState gameState players set_players conns
       timers nextTimer].
  rewrite delete_insert_eq, lookup_insert_eq, Hon. do 3 (split; [done|]).
  cbn [handle]. unfold on_socket. cbn [conns]. by rewrite lookup_insert_eq.
Qed.

(** X15. The leave sweep does not look at [isActive]: when the player comes
    back on another connection between [leaveGame] and the sweep, the sweep
    still deletes the record; the leaving connection is unbound, and the
    other connection stays bound to the id, which is no longer in the
    roster. *)
Theorem leave_sweep_deletes_returned
    (w : World) (s s' : SocketId) (c' : Conn) (pid u : string) (p : Player) :
  bound_to w s pid p → s' ≠ s → conns w !! s' = Some c' → connected c' = true →
  let k := nextTimer w in
  let w1 := (handle (LeaveGame s) w).1 in
  let w2 := (handle (ReconnectPlayer s' pid u) w1).1 in
  let r3 := handle (TimerFires k) w2 in
  players (gameState w2) = <[pid := set_isActive true p]> (players (gameState w))
  ∧ players (gameState r3.1) = delete pid (players (gameState w))
  ∧ conns r3.1 !! s'
    = Some {| hasJoined := true; playerId := Some pid; connected := true |}
  ∧ conns r3.1 !! s
    = Some {| hasJoined := false; playerId := None; connected := true |}
  ∧ r3.2 = [(ToAll, gameStateMsg (gameState r3.1))].
Proof.
  intros (c & Hc & Hon & Hid & Hne & Hp) Hss Hc' Hon'. cbv zeta.
  rewrite (leave_bound w s pid p c Hc Hon Hid Hne Hp). cbv zeta. cbn [fst].
  erewrite (reconnect_known _ s' c' pid u (set_isActive false p));
    [|world_lookup..].
  cbv zeta.
  cbn [fst snd set_conn setTimeout set_gameState gameState timers conns
       set_players players nextTimer].
  rewrite insert_insert_eq.
  split; [done|].
  erewrite (fire_leave_sweep _ (nextTimer w) s pid (set_isActive true p) c);
    [|world_lookup..].
  cbv zeta.
  cbn [fst snd set_conn setTimeout set_gameState gameState players set_players
       conns timers nextTimer].
  rewrite delete_insert_eq, lookup_insert_ne, !lookup_insert_eq, Hon by done.
  done.
Qed.

(** ** Balance of teams and roles *)

Lemma assign_team (m : gmap string Player) :
  (assignTeamAndRole m).1
  = if bool_decide (team_size blue m ≤ team_size gold m)%nat then blue else gold.
Proof. unfold assignTeamAndRole, team_size. by repeat case_match. Qed.

Lemma assign_role (m : gmap string Player) :
  let t := (assignTeamAndRole m).1 in
  (assignTeamAndRole m).2
  = if decide (role_count queen t m = 0%nat) then queen
    else if bool_decide (role_count worker t m ≤ role_count soldier t m)%nat
         then worker else soldier.
Proof.
  cbv zeta. pose proof (assign_queen_iff m) as Hq. unfold queens in Hq.
  unfold role_count. rewrite assign_team in *.
  unfold assignTeamAndRole, team_size in *.
  set (t := if bool_decide _ then blue else gold) in *.
  destruct (bool_decide (length (on_team t (values m)) = 0%nat)) eqn:Hlen;
    cbn [snd] in *.
  { rewrite decide_True; [done|]. by apply Hq. }
  destruct (negb (some_queen (on_team t (values m)))) eqn:Hsome; cbn [snd] in *.
  { rewrite decide_True; [done|]. by apply Hq. }
  rewrite decide_False; [done|].
  intros Hz. apply Hq in Hz. by case_bool_decide.
Qed.

Lemma role_count_insert
    (r : Role) (t : Team) (m : gmap string Player) (k : string) (p : Player) :
  m !! k = None →
  role_count r t (<[k := p]> m)
  = ((if decide (team p = t ∧ role p = r) then 1 else 0) + role_count r t m)%nat.
Proof.
  intros Hk. unfold role_count, on_team, with_role.
  rewrite (values_insert_fresh m k p Hk), filter_cons.
  destruct (decide (team p = t)) as [Ht|Ht].
  - rewrite filter_cons.
    destruct (decide (role p = r)) as [Hr|Hr].
    + by rewrite decide_True.
    + rewrite decide_False by tauto. done.
  - rewrite decide_False by tauto. done.
Qed.

Lemma first_join_players (w : World) (s : SocketId) (c : Conn) (u : string) :
  conns w !! s = Some c → may_join c →
  players (gameState (handle (JoinGame s u) w).1)
  = <[u := {| id := u; position := spawn (assignTeamAndRole (players (gameState w))).1;
              rotation := (0, 0, 0);
              team := (assignTeamAndRole (players (gameState w))).1;
              role := (assignTeamAndRole (players (gameState w))).2;
              isActive := true |}]> (players (gameState w)).
Proof.
  intros Hc (Hon & Hj & Ht). cbn [handle]. unfold on_socket. rewrite Hc, Hon.
  unfold joinGame. rewrite Hj, Ht. cbn [orb fst set_conn set_gameState gameState].
  by rewrite start_if_ready_players.
Qed.

(** X16. A [joinGame] that is accepted puts the new player on the smaller
    team (blue when they are equal): equal teams end one apart, unequal
    teams end one closer than they were. *)
Theorem join_evens_teams (w : World) (s : SocketId) (c : Conn) (u : string) :
  conns w !! s = Some c → may_join c → players (gameState w) !! u = None →
  let m := players (gameState w) in
  let m' := players (gameState (handle (JoinGame s u) w).1) in
  imbalance m' = if decide (imbalance m = 0) then 1 else imbalance m - 1.
Proof.
  intros Hc Hj Hu. cbv zeta. rewrite (first_join_players w s c u Hc Hj).
  unfold imbalance. rewrite !team_size_insert by done. cbn [team].
  rewrite assign_team.
  case_bool_decide; repeat case_decide; try done; lia.
Qed.

Lemma join_step_balanced (e : Event) (w : World) :
  is_join e = true → fresh_event w e = true →
  let m := players (gameState w) in
  let m' := players (gameState (handle e w).1) in
  ((team_size gold m ≤ team_size blue m ≤ team_size gold m + 1)%nat →
   (team_size gold m' ≤ team_size blue m' ≤ team_size gold m' + 1)%nat)
  ∧ ((∀ t, role_count soldier t m ≤ role_count worker t m
           ≤ role_count soldier t m + 1)%nat →
     (∀ t, role_count soldier t m' ≤ role_count worker t m'
           ≤ role_count soldier t m' + 1)%nat).
Proof.
  intros Hj Hf. cbv zeta. destruct e; try discriminate Hj.
  - cbn [handle]. unfold connection. by case_match.
  - apply fresh_uuid_absent in Hf.
    cbn [handle]. unfold on_socket, joinGame.
    repeat case_match; try done.
    cbn [fst set_conn set_gameState gameState].
    rewrite start_if_ready_players. cbn [set_players players].
    split.
    + rewrite !team_size_insert by done. cbn [team]. rewrite assign_team.
      case_bool_decide; repeat case_decide; try done; lia.
    + intros Hinv t. rewrite !role_count_insert by done. cbn [team role].
      pose proof (assign_role (players (gameState w))) as Hr. cbv zeta in Hr.
      specialize (Hinv (assignTeamAndRole (players (gameState w))).1) as Hinv'.
      specialize (Hinv t).
      destruct (decide ((assignTeamAndRole (players (gameState w))).1 = t))
        as [<-|Hne].
      * rewrite Hr. repeat (case_decide || case_bool_decide);
          destruct_and?; try done; try lia; try tauto.
      * rewrite !decide_False by tauto. lia.
Qed.

Lemma joins_trace_ok (evs : list Event) (k : nat) (w : World) :
  only_joins evs = true → fresh_trace w evs = true →
  trace_ok (λ w e, is_join e && fresh_event w e) w (take k evs) = true.
Proof.
  intros Hj Hf.
  apply (trace_ok_both (λ _ e, is_join e) fresh_event).
  - apply trace_ok_forallb. by apply only_joins_take.
  - by apply trace_ok_take.
Qed.

(** X17. When connections only join (from the initial world, [uuidv4]
    returning unused ids), after every prefix blue has as many players as
    gold or one more. *)
Theorem joins_keep_teams_balanced (evs : list Event) (k : nat) :
  only_joins evs = true → fresh_trace initialWorld evs = true →
  let m := players (gameState (run (take k evs) initialWorld).1) in
  (team_size gold m ≤ team_size blue m ≤ team_size gold m + 1)%nat.
Proof.
  intros Hj Hf. cbv zeta.
  apply (run_invariant (λ w e, is_join e && fresh_event w e)
           (λ w, (team_size gold (players (gameState w))
                  ≤ team_size blue (players (gameState w))
                  ≤ team_size gold (players (gameState w)) + 1)%nat)).
  - intros e w Hok. apply andb_true_iff in Hok as [H1 H2].
    apply (join_step_balanced e w H1 H2).
  - by apply joins_trace_ok.
  - unfold team_size, values. cbn [initialWorld gameState initialGameState players].
    rewrite map_to_list_empty. cbn. lia.
Qed.

Lemma joins_keep_teams_balanced_witness :
  let m := players (gameState (run (take 10 six_joins) initialWorld).1) in
  team_size blue m = 3%nat ∧ team_size gold m = 2%nat
  ∧ (team_size gold m ≤ team_size blue m ≤ team_size gold m + 1)%nat.
Proof.
  split; [vm_compute; reflexivity|]. split; [vm_compute; reflexivity|].
  assert (only_joins six_joins = true) as Hj by (vm_compute; reflexivity).
  assert (fresh_trace initialWorld six_joins = true) as Hf
    by (vm_compute; reflexivity).
  exact (joins_keep_teams_balanced six_joins 10 Hj Hf).
Defined.

(** X18. When connections only join, after every prefix each team has as
    many workers as soldiers or one more. *)
Theorem joins_keep_roles_balanced (evs : list Event) (k : nat) (t : Team) :
  only_joins evs = true → fresh_trace initialWorld evs = true →
  let m := players (gameState (run (take k evs) initialWorld).1) in
  (role_count soldier t m ≤ role_count worker t m ≤ role_count soldier t m + 1)%nat.
Proof.
  intros Hj Hf. cbv zeta. revert t.
  apply (run_invariant (λ w e, is_join e && fresh_event w e)
           (λ w, ∀ t, (role_count soldier t (players (gameState w))
                       ≤ role_count worker t (players (gameState w))
                       ≤ role_count soldier t (players (gameState w)) + 1)%nat)).
  - intros e w Hok. apply andb_true_iff in Hok as [H1 H2].
    apply (join_step_balanced e w H1 H2).
  - by apply joins_trace_ok.
  - intros t. unfold role_count, values.
    cbn [initialWorld gameState initialGameState players].
    rewrite map_to_list_empty. cbn. lia.
Qed.

Lemma joins_keep_roles_balanced_witness :
  let m := players (gameState (run (take 10 six_joins) initialWorld).1) in
  role_count worker blue m = 1%nat ∧ role_count soldier blue m = 1%nat
  ∧ (role_count soldier blue m ≤ role_count worker blue m
     ≤ role_count soldier blue m + 1)%nat.
Proof.
  split; [vm_compute; reflexivity|]. split; [vm_compute; reflexivity|].
  assert (only_joins six_joins = true) as Hj by (vm_compute; reflexivity).
  assert (fresh_trace initialWorld six_joins = true) as Hf
    by (vm_compute; reflexivity).
  exact (joins_keep_roles_balanced six_joins 10 blue Hj Hf).
Defined.

Lemma join_evens_teams_witness :
  let w := (run three_and_a_visitor initialWorld).1 in
  let m := players (gameState w) in
  let m' := players (gameState (handle (JoinGame "s4" "p4") w).1) in
  conns w !! "s4" = Some fresh_conn
  ∧ players (gameState w) !! "p4" = None
  ∧ imbalance m = 1
  ∧ imbalance m' = if decide (imbalance m = 0) then 1 else imbalance m - 1.
Proof.
  assert (conns (run three_and_a_visitor initialWorld).1 !! "s4" = Some fresh_conn)
    as Hc by (vm_compute; reflexivity).
  assert (players (gameState (run three_and_a_visitor initialWorld).1) !! "p4" = None)
    as Hu by (vm_compute; reflexivity).
  split; [exact Hc|]. split; [exact Hu|].
  split; [vm_compute; reflexivity|].
  refine (join_evens_teams _ "s4" fresh_conn "p4" Hc _ Hu).
  repeat split.
Defined.

(** The worker of the three-player scenario drops or leaves while a fourth
    connection is open. *)
Lemma disconnect_then_sweep_witness :
  let w := (run three_and_a_visitor initialWorld).1 in
  let r1 := handle (Disconnect "s3") w in
  bound_to w "s3" "p3" (joined "p3" blue worker)
  ∧ nextTimer w = 0%nat
  ∧ players (gameState (handle (TimerFires (nextTimer w)) r1.1).1)
    = delete "p3" (players (gameState w)).
Proof.
  assert (bound_to (run three_and_a_visitor initialWorld).1 "s3" "p3"
            (joined "p3" blue worker)) as Hb.
  { exists (bound_conn "p3"). vm_compute. repeat split; congruence. }
  split; [exact Hb|]. split; [vm_compute; reflexivity|].
  exact (proj1 (proj2 (proj2 (proj2 (proj2 (proj2
           (disconnect_then_sweep _ "s3" "p3" _ Hb))))))).
Defined.

Lemma reconnect_defuses_sweep_witness :
  let w := (run three_and_a_visitor initialWorld).1 in
  let w1 := (handle (Disconnect "s3") w).1 in
  let w2 := (handle (ReconnectPlayer "s4" "p3" "p9") w1).1 in
  bound_to w "s3" "p3" (joined "p3" blue worker)
  ∧ conns w !! "s4" = Some fresh_conn
  ∧ players (gameState w2)
    = <["p3" := set_isActive true (joined "p3" blue worker)]> (players (gameState w))
  ∧ (handle (TimerFires (nextTimer w)) w2).2 = [].
Proof.
  assert (bound_to (run three_and_a_visitor initialWorld).1 "s3" "p3"
            (joined "p3" blue worker)) as Hb.
  { exists (bound_conn "p3"). vm_compute. repeat split; congruence. }
  assert (conns (run three_and_a_visitor initialWorld).1 !! "s4" = Some fresh_conn)
    as Hc by (vm_compute; reflexivity).
  split; [exact Hb|]. split; [exact Hc|].
  destruct (reconnect_defuses_sweep _ "s3" "s4" fresh_conn "p3" "p9" _ Hb
              ltac:(discriminate) Hc eq_refl) as (H1 & _ & _ & _ & _ & H6).
  split; [exact H1 | exact H6].
Defined.

Lemma leave_then_sweep_then_join_witness :
  let w := (run three_and_a_visitor initialWorld).1 in
  let w1 := (handle (LeaveGame "s3") w).1 in
  let r2 := handle (TimerFires (nextTimer w)) w1 in
  bound_to w "s3" "p3" (joined "p3" blue worker)
  ∧ players (gameState r2.1) = delete "p3" (players (gameState w))
  ∧ conns r2.1 !! "s3"
    = Some {| hasJoined := false; playerId := None; connected := true |}.
Proof.
  assert (bound_to (run three_and_a_visitor initialWorld).1 "s3" "p3"
            (joined "p3" blue worker)) as Hb.
  { exists (bound_conn "p3"). vm_compute. repeat split; congruence. }
  split; [exact Hb|].
  destruct (leave_then_sweep_then_join _ "s3" "p3" "p9" _ Hb)
    as (_ & _ & _ & H4 & H5 & _).
  split; [exact H4 | exact H5].
Defined.

Lemma leave_sweep_deletes_returned_witness :
  let w := (run three_and_a_visitor initialWorld).1 in
  let w1 := (handle (LeaveGame "s3") w).1 in
  let w2 := (handle (ReconnectPlayer "s4" "p3" "p9") w1).1 in
  let r3 := handle (TimerFires (nextTimer w)) w2 in
  bound_to w "s3" "p3" (joined "p3" blue worker)
  ∧ conns w !! "s4" = Some fresh_conn
  ∧ players (gameState r3.1) = delete "p3" (players (gameState w))
  ∧ conns r3.1 !! "s4"
    = Some {| hasJoined := true; playerId := Some "p3"; connected := true |}.
Proof.
  assert (bound_to (run three_and_a_visitor initialWorld).1 "s3" "p3"
            (joined "p3" blue worker)) as Hb.
  { exists (bound_conn "p3"). vm_compute. repeat split; congruence. }
  assert (conns (run three_and_a_visitor initialWorld).1 !! "s4" = Some fresh_conn)
    as Hc by (vm_compute; reflexivity).
  split; [exact Hb|]. split; [exact Hc|].
  destruct (leave_sweep_deletes_returned _ "s3" "s4" fresh_conn "p3" "p9" _ Hb
              ltac:(discriminate) Hc eq_refl) as (_ & H2 & H3 & _).
  split; [exact H2 | exact H3].
Defined.

(** ** Inactive records and their sweeps *)

Lemma step_sweep_pending (e : Event) (w : World) :
  sweep_pending w → sweep_pending (handle e w).1.
Proof.
  intros [Hwf Hinv]. split.
  - intros k. destruct e; step_cases; try apply Hwf;
      rewrite ?lookup_insert, ?lookup_delete; repeat case_decide;
      try (intros _; lia); try (intros [? ?]; done);
      intros Hk; apply Hwf in Hk; lia.
  - intros pid p.
    assert (∀ (t0 : Timer) (k0 : nat), timers w !! k0 = Some t0 →
              timer_pid t0 ≠ Some pid →
              players (gameState w) !! pid = Some p → isActive p = false →
              ∃ k t, delete k0 (timers w) !! k = Some t ∧ timer_pid t = Some pid)
      as Hdel.
    { intros t0 k0 Hk0 Hne Hp Hin.
      destruct (Hinv pid p Hp Hin) as (k & t & Hk & Ht).
      exists k, t. split; [|done]. rewrite lookup_delete_ne; [done|].
      intros <-. congruence. }
    assert (∀ t0, players (gameState w) !! pid = Some p → isActive p = false →
              ∃ k t, <[nextTimer w := t0]> (timers w) !! k = Some t
                     ∧ timer_pid t = Some pid) as Hins.
    { intros t0 Hp Hin.
      destruct (Hinv pid p Hp Hin) as (k & t & Hk & Ht).
      exists k, t. split; [|done]. rewrite lookup_insert_ne; [done|].
      assert (k < nextTimer w)%nat by (apply Hwf; eauto). lia. }
    destruct e; step_cases; decide_hyps; lookup_hyps;
      rewrite ?lookup_insert, ?lookup_alter, ?lookup_delete, ?lookup_empty;
      repeat case_decide; subst; try done;
      intros Hp Hin;
      (destruct (players (gameState w) !! pid) eqn:Hl; cbn in Hp; [|try done]);
      simplify_eq; cbn in *;
      try first [ done
            | by eapply Hinv
            | by eapply Hins
            | (eapply Hdel; eauto; cbn; congruence)
            | (eexists _, _; rewrite lookup_insert_eq; split; [done|];
               unfold bound_player in *; repeat case_match; by simplify_eq) ].
Qed.

(** X20. In every world the server can reach, a roster entry that is marked
    inactive is named by a pending sweep: no inactive record is left behind
    without a timer that will look at it. *)
Theorem inactive_has_sweep (evs : list Event) (pid : string) (p : Player) :
  let w := (run evs initialWorld).1 in
  players (gameState w) !! pid = Some p → isActive p = false →
  ∃ k t, timers w !! k = Some t ∧ timer_pid t = Some pid.
Proof.
  cbv zeta. revert pid p.
  apply (run_invariant (λ _ _, true) sweep_pending
           (λ e w _, step_sweep_pending e w) evs initialWorld (trace_ok_true _ _)).
  split.
  - intros k [t Ht]. cbn in Ht. by rewrite lookup_empty in Ht.
  - intros pid p Hp. cbn in Hp. by rewrite lookup_empty in Hp.
Qed.

Lemma inactive_has_sweep_witness :
  let w := (run drop_twice initialWorld).1 in
  players (gameState w) !! "p1" = Some (set_isActive false (joined "p1" blue queen))
  ∧ ∃ k t, timers w !! k = Some t ∧ timer_pid t = Some "p1"%string.
Proof.
  assert (players (gameState (run drop_twice initialWorld).1) !! "p1"
          = Some (set_isActive false (joined "p1" blue queen))) as Hp
    by (vm_compute; reflexivity).
  split; [exact Hp|].
  exact (inactive_has_sweep drop_twice "p1" _ Hp eq_refl).
Defined.

(** X21. Only a sweep or the idle reset removes a player from the roster: a
    player in the roster before any other event is in the roster after it. *)
Theorem only_sweeps_remove (e : Event) (w : World) (pid : string) (p : Player) :
  players (gameState w) !! pid = Some p →
  is_Some (players (gameState (handle e w).1) !! pid)
  ∨ (∃ k, e = TimerFires k) ∨ e = IdleTick.
Proof.
  intros Hp.
  destruct e; eauto; left; step_cases;
    rewrite ?lookup_insert, ?lookup_alter;
    repeat case_decide; subst; rewrite ?Hp; eauto.
Qed.

Lemma only_sweeps_remove_witness :
  let w := (run scenario_joins initialWorld).1 in
  players (gameState w) !! "p3" = Some (joined "p3" blue worker)
  ∧ (is_Some (players (gameState (handle (Disconnect "s3") w).1) !! "p3")
     ∨ (∃ k, Disconnect "s3" = TimerFires k) ∨ Disconnect "s3" = IdleTick).
Proof.
  assert (players (gameState (run scenario_joins initialWorld).1) !! "p3"
          = Some (joined "p3" blue worker)) as Hp by (vm_compute; reflexivity).
  split; [exact Hp|].
  exact (only_sweeps_remove (Disconnect "s3") _ "p3" _ Hp).
Defined.

(** X22. In every world the server can reach ([uuidv4] returning unused
    ids), a connection that carries a player id has its joined flag set and
    the id is not the empty string. *)
Theorem reachable_bound_has_joined
    (evs : list Event) (s : SocketId) (c : Conn) (pid : string) :
  fresh_trace initialWorld evs = true →
  conns (run evs initialWorld).1 !! s = Some c → playerId c = Some pid →
  hasJoined c = true ∧ pid ≠ ""%string.
Proof.
  intros Hf. apply (run_bound_wf evs initialWorld Hf).
  intros s0 c0 p0 H0. cbn [initialWorld conns] in H0.
  by rewrite lookup_empty in H0.
Qed.

Lemma reachable_bound_has_joined_witness :
  fresh_trace initialWorld drop_and_return = true
  ∧ conns (run drop_and_return initialWorld).1 !! "s3" = Some (bound_conn "p1")
  ∧ hasJoined (bound_conn "p1") = true ∧ "p1"%string ≠ ""%string.
Proof.
  assert (fresh_trace initialWorld drop_and_return = true) as Hf
    by (vm_compute; reflexivity).
  assert (conns (run drop_and_return initialWorld).1 !! "s3" = Some (bound_conn "p1"))
    as Hc by (vm_compute; reflexivity).
  split; [exact Hf|]. split; [exact Hc|].
  exact (reachable_bound_has_joined drop_and_return "s3" _ "p1" Hf Hc eq_refl).
Defined.

(** ** A new game after the reset *)

Lemma assign_first : assignTeamAndRole ∅ = (blue, queen).
Proof. vm_compute. reflexivity. Qed.

Lemma assign_second (u : string) (p : Player) :
  team p = blue →
  assignTeamAndRole (<[u := p]> ∅) = (gold, queen).
Proof.
  intros Ht. unfold assignTeamAndRole, values.
  rewrite insert_empty, map_to_list_singleton. cbn [fmap list_fmap snd].
  unfold on_team. rewrite !filter_cons, !filter_nil, Ht.
  vm_compute. reflexivity.
Qed.

Lemma join_first (w : World) (s : SocketId) (u : string) :
  conns w !! s = Some {| hasJoined := false; playerId := None; connected := true |} →
  handle (JoinGame s u) w
  = joinGame s u w {| hasJoined := false; playerId := None; connected := true |}.
Proof. intros Hc. cbn [handle]. unfold on_socket. by rewrite Hc. Qed.

Lemma idle_ended (w : World) :
  status (gameState w) = ended →
  handle IdleTick w
  = (set_gameState initialGameState w, [(ToAll, gameStateMsg initialGameState)]).
Proof. intros H. cbn [handle]. unfold idleTick. by rewrite bool_decide_eq_true_2. Qed.

Lemma connection_new (w : World) (s : SocketId) :
  conns w !! s = None →
  handle (Connection s) w
  = (set_conn s {| hasJoined := false; playerId := None; connected := true |} w, []).
Proof. intros H. cbn [handle]. unfold connection. by rewrite H. Qed.

(** X23. After the idle reset of an ended game the server starts over: the
    first new connection to join becomes the blue queen, the second the gold
    queen, the roster holds exactly these two, and the game is playing. *)
Theorem reset_starts_over (w : World) (s1 s2 : SocketId) (u1 u2 : string) :
  status (gameState w) = ended →
  conns w !! s1 = None → conns w !! s2 = None → s1 ≠ s2 → u1 ≠ u2 →
  let r := run [IdleTick; Connection s1; JoinGame s1 u1;
                Connection s2; JoinGame s2 u2] w in
  gameOvers r.2 = []
  ∧ omap (λ e, match e.2 with
               | playerAssigned pid t r => Some (e.1, pid, t, r)
               | _ => None
               end) r.2
    = [(ToSocket s1, u1, blue, queen); (ToSocket s2, u2, gold, queen)]
  ∧ players (gameState r.1)
    = <[u2 := joined u2 gold queen]> (<[u1 := joined u1 blue queen]> ∅)
  ∧ status (gameState r.1) = playing.
Proof.
  intros Hst Hc1 Hc2 Hss Huu. cbv zeta. unfold run.
  rewrite (idle_ended w Hst). cbn [fst snd].
  rewrite (connection_new _ s1) by done. cbn [fst snd].
  rewrite (join_first _ s1 u1) by world_lookup.
  unfold joinGame.
  cbn [hasJoined playerId truthy orb connected fst snd set_conn set_gameState
       gameState conns initialGameState players set_players].
  rewrite assign_first. cbn [fst snd].
  unfold start_if_ready.
  cbn [set_players players status].
  rewrite length_keys, map_size_insert_None, map_size_empty by apply lookup_empty.
  rewrite (bool_decide_eq_false_2 (2 ≤ 1)%nat) by lia. rewrite andb_false_r.
  rewrite (connection_new _ s2)
    by (cbn [set_conn set_gameState conns]; by rewrite !lookup_insert_ne).
  cbn [fst snd].
  rewrite (join_first _ s2 u2) by world_lookup.
  unfold joinGame.
  cbn [hasJoined playerId truthy orb connected fst snd set_conn set_gameState
       gameState conns players set_players].
  rewrite (assign_second u1) by done. cbn [fst snd].
  unfold start_if_ready. cbn [set_players players status].
  rewrite length_keys, !map_size_insert_None, map_size_empty
    by (rewrite ?lookup_insert_ne by done; apply lookup_empty).
  rewrite !bool_decide_eq_true_2 by (done || lia).
  cbn [andb set_status status players app gameOvers omap snd fst].
  done.
Qed.

Lemma reset_starts_over_witness :
  let w := (run twelve_berries initialWorld).1 in
  let r := run [IdleTick; Connection "s4"; JoinGame "s4" "p4";
                Connection "s5"; JoinGame "s5" "p5"] w in
  status (gameState w) = ended
  ∧ conns w !! "s4" = None ∧ conns w !! "s5" = None
  ∧ players (gameState r.1)
    = <["p5" := joined "p5" gold queen]> (<["p4" := joined "p4" blue queen]> ∅)
  ∧ status (gameState r.1) = playing.
Proof.
  assert (status (gameState (run twelve_berries initialWorld).1) = ended) as Hst
    by (vm_compute; reflexivity).
  assert (conns (run twelve_berries initialWorld).1 !! "s4" = None) as Hc1
    by (vm_compute; reflexivity).
  assert (conns (run twelve_berries initialWorld).1 !! "s5" = None) as Hc2
    by (vm_compute; reflexivity).
  split; [exact Hst|]. split; [exact Hc1|]. split; [exact Hc2|].
  exact (proj2 (proj2 (reset_starts_over _ "s4" "s5" "p4" "p5" Hst Hc1 Hc2
                         ltac:(discriminate) ltac:(discriminate)))).
Defined.

(** ** reconnectPlayer with an unknown id *)

(** X24. A [reconnectPlayer] for whose id [gameState.players[id]] finds
    nothing (the id is empty, or it is neither a roster key nor a name the
    roster object inherits) is answered exactly as a first [joinGame] of
    that connection would be.  The new player goes to blue unless blue is
    the larger team; it is the queen if that team has none, else a worker
    if the team's workers do not outnumber its soldiers, else a soldier; it
    is active and stands at (-15, 5, 0) for blue and (15, 5, 0) for gold.
    No other roster entry changes; a waiting game with two players starts;
    the caller gets [playerAssigned], then every session the new state, and
    nothing else is sent; the connection is bound to the new id. *)
Theorem reconnect_unresolved_is_join (w : World) (s : SocketId) (c : Conn) (pid uuid : string) :
  conns w !! s = Some c → connected c = true →
  pid = ""%string ∨ lookup_player w pid = None →
  let r := handle (ReconnectPlayer s pid uuid) w in
  let g := gameState w in
  let g' := gameState r.1 in
  let m := players g in
  let t := if bool_decide (team_size blue m ≤ team_size gold m)%nat
           then blue else gold in
  let ro := if decide (role_count queen t m = 0%nat) then queen
            else if bool_decide (role_count worker t m ≤ role_count soldier t m)%nat
                 then worker else soldier in
  r = joinGame s uuid w {| hasJoined := false; playerId := None; connected := true |}
  ∧ players g' !! uuid
    = Some {| id := uuid;
              position := match t with blue => (-15, 5, 0) | gold => (15, 5, 0) end;
              rotation := (0, 0, 0);
              team := t; role := ro; isActive := true |}
  ∧ (∀ j, j ≠ uuid → players g' !! j = players g !! j)
  ∧ (status g = waiting → (2 ≤ size (players g'))%nat → status g' = playing)
  ∧ (status g ≠ waiting ∨ (size (players g') < 2)%nat → status g' = status g)
  ∧ r.2 = [(ToSocket s, playerAssigned uuid t ro); (ToAll, gameStateMsg g')]
  ∧ conns r.1 !! s = Some {| hasJoined := true; playerId := Some uuid; connected := true |}.
Proof.
  intros Hc Hon Hp.
  cbv zeta. rewrite (reconnect_unknown_as_join w s c pid uuid Hc Hon Hp).
  split; [done|].
  pose proof (first_join_result w s uuid) as Hj. cbv zeta in Hj.
  pose proof (assign_role (players (gameState w))) as Hr. cbv zeta in Hr.
  rewrite Hr, assign_team in Hj. clear Hr.
  destruct (bool_decide (team_size blue (players (gameState w))
                         ≤ team_size gold (players (gameState w)))%nat); exact Hj.
Qed.

(** A connection that never joined presents a stale id and becomes the gold
    queen; the second player starts the game. *)
Lemma reconnect_unresolved_is_join_witness :
  let w := (run one_joined_one_idle initialWorld).1 in
  let r := handle (ReconnectPlayer "s2" "stale" "p2") w in
  conns w !! "s2" = Some fresh_conn
  ∧ lookup_player w "stale" = None
  ∧ status (gameState r.1) = playing
  ∧ players (gameState r.1) !! "p2" = Some (joined "p2" gold queen)
  ∧ r = joinGame "s2" "p2" w {| hasJoined := false; playerId := None; connected := true |}.
Proof.
  assert (conns (run one_joined_one_idle initialWorld).1 !! "s2" = Some fresh_conn)
    as Hc by (vm_compute; reflexivity).
  assert (lookup_player (run one_joined_one_idle initialWorld).1 "stale" = None)
    as Hp by (vm_compute; reflexivity).
  split; [exact Hc|]. split; [exact Hp|].
  do 2 (split; [vm_compute; reflexivity|]).
  exact (proj1 (reconnect_unresolved_is_join _ "s2" _ "stale" "p2" Hc eq_refl
                  (or_intror Hp))).
Defined.

(** ** After the idle reset *)

(** Only an insertion under a generated id adds a roster key. *)
Lemma step_absent (e : Event) (w : World) (p : string) :
  players (gameState w) !! p = None → event_uuid e ≠ Some p →
  players (gameState (handle e w).1) !! p = None.
Proof.
  intros Hp Hu.
  destruct e; cbn [event_uuid] in Hu; cbn [handle];
    unfold on_socket, connection, joinGame, playerUpdate, collectBerry,
      moveSnail, attackQueen, disconnect, leaveGame, reconnectPlayer,
      fireTimer, idleTick;
    repeat case_match; try done;
    cbn [fst set_conn set_gameState setTimeout clearFired store_pose
         store_isActive set_inherited gameState];
    rewrite ?start_if_ready_players;
    cbn [players set_players set_berryCount set_status set_snailPosition
         set_blueScore set_goldScore set_blueQueenAlive set_goldQueenAlive
         initialGameState];
    rewrite ?lookup_alter, ?lookup_insert, ?lookup_delete, ?lookup_empty;
    repeat case_decide; simplify_eq; try done; by rewrite ?Hp.
Qed.

Lemma step_plain_world (e : Event) (w : World) :
  plain_event e = true → plain_world w → plain_world (handle e w).1.
Proof.
  intros He [Hcs Hts].
  assert (∀ c pid v, bound_player c w = Some (pid, v) →
            ∀ s, conns w !! s = Some c → pid ∉ reserved_names) as Hbound.
  { intros c pid v Hb s Hc. apply bound_player_inv in Hb as (Hid & _ & _).
    by eapply Hcs. }
  split.
  - intros s0 c0 pid0.
    destruct e; cbn [plain_event] in He; decide_hyps; step_cases;
      rewrite ?lookup_insert, ?lookup_alter;
      repeat case_decide; subst;
      try (destruct (conns w !! s0) eqn:Hs0; cbn);
      intros; simplify_eq/=; try done; by eapply Hcs.
  - intros k0 t0 pid0.
    destruct e; cbn [plain_event] in He; decide_hyps; step_cases;
      rewrite ?lookup_insert, ?lookup_delete;
      repeat case_decide; subst;
      intros; simplify_eq/=; try done;
      first [ by eapply Hts | by eapply Hbound ].
Qed.

(** A pending leave sweep of [s] was pending before the step, or the step is
    a [leaveGame] of [s] whose guard holds. *)
Lemma step_leave_sweeps (e : Event) (w : World) (s : SocketId) (k : nat) (p' : string) :
  timers (handle e w).1 !! k = Some (LeaveSweep s p') →
  timers w !! k = Some (LeaveSweep s p')
  ∨ ∃ c v, e = LeaveGame s ∧ conns w !! s = Some c ∧ connected c = true
           ∧ bound_player c w = Some (p', v).
Proof.
  destruct e as [s0|s0 u|s0 pos rot|s0|s0|s0|s0|s0|s0 pid u|k0|];
    cbn [handle]; unfold on_socket.
  - unfold connection. case_match; eauto.
  - unfold joinGame. repeat case_match; eauto.
  - unfold playerUpdate. repeat case_match; eauto.
  - unfold collectBerry. repeat case_match; eauto.
  - unfold moveSnail. repeat case_match; eauto.
  - unfold attackQueen. repeat case_match; eauto;
      cbn [fst setTimeout timers set_gameState]; rewrite lookup_insert;
      (goal_decide; [intros ?; simplify_eq | eauto]).
  - unfold disconnect. repeat case_match; eauto;
      cbn [fst setTimeout timers set_gameState set_conn store_isActive set_inherited];
      rewrite lookup_insert;
      (goal_decide; [intros ?; simplify_eq | eauto]).
  - unfold leaveGame.
    destruct (conns w !! s0) as [c|] eqn:Hc; [|eauto].
    destruct (connected c) eqn:Hon; [|eauto].
    destruct (bound_player c w) as [[pid [p| |]]|] eqn:Hb; eauto;
      cbn [fst setTimeout timers set_gameState store_isActive set_inherited];
      rewrite lookup_insert;
      (case_decide; eauto); intros; simplify_eq; right; eauto 10.
  - unfold reconnectPlayer. repeat case_match; eauto.
  - unfold fireTimer. repeat case_match; eauto;
      cbn [fst clearFired timers set_gameState]; rewrite lookup_delete;
      (goal_decide; [intros ?; simplify_eq | eauto]).
  - unfold idleTick. case_match; eauto.
Qed.

Lemma step_conn_kept (e : Event) (w : World) (s : SocketId) (c : Conn) :
  conns w !! s = Some c → hasJoined c = true →
  (∀ k p', timers w !! k = Some (LeaveSweep s p') → lookup_player w p' = None) →
  keeps_session s e = true →
  conns (handle e w).1 !! s = Some c.
Proof.
  intros Hc Hj Hsw Hk.
  destruct e as [s0|s0 u|s0 pos rot|s0|s0|s0|s0|s0|s0 pid0 u|k0|];
    cbn [keeps_session] in Hk; cbn [handle]; unfold on_socket.
  - unfold connection. case_match eqn:H0; [done|].
    cbn [fst set_conn conns]. rewrite lookup_insert_ne; [done|congruence].
  - unfold joinGame.
    destruct (conns w !! s0) as [c0|] eqn:Hc0; [|done].
    destruct (connected c0); [|done].
    destruct (hasJoined c0 || truthy (playerId c0)) eqn:Hg; [done|].
    cbn [fst set_conn conns set_gameState].
    rewrite lookup_insert_ne; [done|]. intros ->.
    rewrite Hc in Hc0. simplify_eq. by rewrite Hj in Hg.
  - unfold playerUpdate. by repeat case_match.
  - unfold collectBerry. by repeat case_match.
  - unfold moveSnail. by repeat case_match.
  - unfold attackQueen. by repeat case_match.
  - apply negb_true_iff, bool_decide_eq_false in Hk.
    unfold disconnect. repeat case_match; try done;
      cbn [fst set_conn conns set_gameState setTimeout store_isActive set_inherited];
      by rewrite lookup_insert_ne.
  - unfold leaveGame. by repeat case_match.
  - apply negb_true_iff, bool_decide_eq_false in Hk.
    unfold reconnectPlayer. repeat case_match; try done;
      cbn [fst set_conn conns set_gameState store_isActive set_inherited];
      by rewrite lookup_insert_ne.
  - unfold fireTimer.
    destruct (timers w !! k0) as [[t|p0|s0 p0]|] eqn:Ht; [..|done].
    + done.
    + by repeat case_match.
    + destruct (lookup_player w p0) eqn:Hp0; [|done].
      cbn [fst conns clearFired]. rewrite lookup_alter_ne; [done|].
      intros ->. specialize (Hsw _ _ Ht). congruence.
  - unfold idleTick. by case_match.
Qed.

Lemma step_stranded (e : Event) (w : World) (s : SocketId) (pid : string) :
  fresh_event w e = true → keeps_session s e = true →
  plain_world w → stranded w s pid → stranded (handle e w).1 s pid.
Proof.
  intros Hf Hk [Hcs Hts] ((c & Hc & Hid & Hj & Hon) & Hp & Hsw).
  assert (∀ u, event_uuid e = Some u → fresh_uuid w u = true) as Hfu.
  { intros u Hu. unfold fresh_event in Hf. by rewrite Hu in Hf. }
  assert (lookup_player w pid = None) as Hl.
  { rewrite lookup_player_plain by (by eapply Hcs). by rewrite Hp. }
  split; [|split].
  - exists c. split; [|done]. eapply step_conn_kept; try done.
    intros k p' Hk'. rewrite lookup_player_plain by (by eapply Hts).
    by rewrite (Hsw _ _ Hk').
  - apply step_absent; [done|]. intros Hu.
    by eapply (fresh_uuid_unbound w pid s c); [apply Hfu|..].
  - intros k p' Hk'.
    apply step_leave_sweeps in Hk' as [Hold|(c0 & v & -> & Hc0 & _ & Hb)].
    + apply step_absent; [by eapply Hsw|]. intros Hu.
      by eapply (fresh_uuid_untimed w p' k); [apply Hfu|..].
    + rewrite Hc in Hc0. simplify_eq.
      apply bound_player_inv in Hb as (Hid' & _ & Hl').
      rewrite Hid in Hid'. by simplify_eq.
Qed.

Lemma run_stranded (evs : list Event) (w : World) (s : SocketId) (pid : string) :
  fresh_trace w evs = true → plain_trace evs = true → session_kept s evs = true →
  plain_world w → stranded w s pid →
  plain_world (run evs w).1 ∧ stranded (run evs w).1 s pid.
Proof.
  intros Hf Hpl Hk Hw Hs.
  apply (run_invariant
           (λ w e, fresh_event w e && (plain_event e && keeps_session s e))
           (λ w, plain_world w ∧ stranded w s pid)); [| |done].
  - intros e w0 Hok [Hw0 Hs0].
    apply andb_true_iff in Hok as [H1 H2]. apply andb_true_iff in H2 as [H2 H3].
    split; [by apply step_plain_world | by apply step_stranded].
  - apply (trace_ok_both fresh_event (λ _ e, plain_event e && keeps_session s e));
      [done|].
    apply (trace_ok_both (λ _ e, plain_event e) (λ _ e, keeps_session s e));
      by apply trace_ok_forallb.
Qed.

Lemma stranded_ignored (w : World) (s : SocketId) (pid : string) (e : Event) :
  plain_world w → stranded w s pid → ignored_event s e → handle e w = (w, []).
Proof.
  intros [Hcs _] ((c & Hc & Hid & Hj & Hon) & Hp & _) He.
  assert (bound_player c w = None) as Hb.
  { apply bound_player_None. intros pid' Hid'. right.
    rewrite Hid in Hid'. simplify_eq.
    rewrite lookup_player_plain by (by eapply Hcs). by rewrite Hp. }
  destruct He; cbn [handle]; rewrite (on_socket_connected _ _ _ _ Hc Hon);
    unfold playerUpdate, collectBerry, moveSnail, attackQueen, leaveGame, joinGame;
    rewrite ?Hb, ?Hj; done.
Qed.

Lemma run_plain_world (evs : list Event) (w : World) :
  plain_trace evs = true → plain_world w → plain_world (run evs w).1.
Proof.
  intros Hpl. apply (run_invariant (λ _ e, plain_event e)).
  - intros e w0. apply step_plain_world.
  - by apply trace_ok_forallb.
Qed.

(** X25. When the idle reset fires on an ended game it installs the initial
    state and touches no connection and no timer.  Let the ids in play be
    such as [uuidv4] makes them (none of the reserved names).  A connection
    that was bound keeps its id, for which the lookup finds nothing in the
    new state; whatever happens next, as long as that connection neither
    reconnects nor closes, it stays so: its [playerUpdate], [collectBerry],
    [moveSnail], [attackQueen] and [leaveGame] change nothing and send
    nothing, its [hasJoined] flag is still set and its [joinGame] is ignored
    as well.  A [reconnectPlayer] with its stale id creates a new player and
    binds the connection to it. *)
Theorem idle_reset_strands_plain
    (evs1 evs2 : list Event) (s : SocketId) (c : Conn) (pid : string) :
  fresh_trace initialWorld evs1 = true → plain_trace evs1 = true →
  let w := (run evs1 initialWorld).1 in
  status (gameState w) = ended →
  conns w !! s = Some c → connected c = true → playerId c = Some pid →
  let r1 := handle IdleTick w in
  fresh_trace r1.1 evs2 = true → plain_trace evs2 = true →
  session_kept s evs2 = true →
  let w2 := (run evs2 r1.1).1 in
  gameState r1.1 = initialGameState
  ∧ conns r1.1 = conns w ∧ timers r1.1 = timers w
  ∧ r1.2 = [(ToAll, gameStateMsg initialGameState)]
  ∧ (∃ c2, conns w2 !! s = Some c2 ∧ playerId c2 = Some pid
           ∧ hasJoined c2 = true ∧ connected c2 = true)
  ∧ lookup_player w2 pid = None
  ∧ (∀ e, ignored_event s e → handle e w2 = (w2, []))
  ∧ (∀ u, let r := handle (ReconnectPlayer s pid u) w2 in
          let tr := assignTeamAndRole (players (gameState w2)) in
          players (gameState r.1) !! u
            = Some {| id := u; position := spawn tr.1; rotation := (0, 0, 0);
                      team := tr.1; role := tr.2; isActive := true |}
          ∧ conns r.1 !! s
            = Some {| hasJoined := true; playerId := Some u; connected := true |}
          ∧ r.2 = [(ToSocket s, playerAssigned u tr.1 tr.2);
                   (ToAll, gameStateMsg (gameState r.1))]).
Proof.
  intros Hf1 Hpl1 w Hended Hc Hon Hid r1 Hf2 Hpl2 Hkept w2.
  assert (r1 = (set_gameState initialGameState w,
                [(ToAll, gameStateMsg initialGameState)])) as Hr1.
  { unfold r1. cbn [handle]. unfold idleTick.
    by rewrite bool_decide_eq_true_2. }
  assert (bound_wf w) as Hwf.
  { apply run_bound_wf; [done|]. intros s0 c0 p0 H0.
    cbn [initialWorld conns] in H0. by rewrite lookup_empty in H0. }
  assert (plain_world w) as Hw.
  { apply run_plain_world; [done|]. split.
    - intros s0 c0 p0 H0. cbn [initialWorld conns] in H0.
      by rewrite lookup_empty in H0.
    - intros k0 t0 p0 H0. cbn [initialWorld timers] in H0.
      by rewrite lookup_empty in H0. }
  destruct (Hwf s c pid Hc Hid) as [Hj _].
  assert (plain_world r1.1) as Hw1 by (by rewrite Hr1).
  assert (stranded r1.1 s pid) as Hs1.
  { rewrite Hr1. cbn [fst]. split; [|split].
    - exists c. done.
    - cbn [set_gameState gameState initialGameState players]. apply lookup_empty.
    - intros k p' _.
      cbn [set_gameState gameState initialGameState players]. apply lookup_empty. }
  pose proof (run_stranded evs2 r1.1 s pid Hf2 Hpl2 Hkept Hw1 Hs1) as [Hw2 Hs2].
  fold w2 in Hw2, Hs2.
  assert (lookup_player w2 pid = None) as Hl2.
  { destruct Hs2 as ((c2 & Hc2 & Hid2 & _) & Hp2 & _).
    rewrite lookup_player_plain by (by eapply (proj1 Hw2)). by rewrite Hp2. }
  rewrite Hr1. cbn [fst snd]. do 4 (split; [done|]).
  split; [apply Hs2|]. split; [done|].
  split; [intros e He; by eapply stranded_ignored|].
  intros u.
  destruct Hs2 as ((c2 & Hc2 & _ & _ & Hon2) & Hp2 & _).
  fold w2.
  change (run evs2 (set_gameState initialGameState w)).1 with w2 in *.
  cbv zeta.
  rewrite (reconnect_unknown_as_join w2 s c2 pid u Hc2 Hon2 (or_intror Hl2)).
  pose proof (first_join_result w2 s u) as (Hnew & _ & _ & _ & Hmsg & Hconn).
  done.
Qed.

(** The worker who won the economic game is stranded by the reset: its berry
    and its join are ignored, its reconnection gives it a new identity. *)
Lemma idle_reset_strands_plain_witness :
  let w := (run twelve_berries initialWorld).1 in
  let w2 := (run after_reset (handle IdleTick w).1).1 in
  status (gameState w) = ended
  ∧ conns w !! "s3" = Some (bound_conn "p3")
  ∧ assignTeamAndRole (players (gameState w2)) = (gold, queen)
  ∧ handle (CollectBerry "s3") w2 = (w2, [])
  ∧ handle (JoinGame "s3" "p5") w2 = (w2, [])
  ∧ conns (handle (ReconnectPlayer "s3" "p3" "p6") w2).1 !! "s3"
    = Some {| hasJoined := true; playerId := Some "p6"; connected := true |}.
Proof.
  assert (fresh_trace initialWorld twelve_berries = true) as Hf1
    by (vm_compute; reflexivity).
  assert (plain_trace twelve_berries = true) as Hp1 by (vm_compute; reflexivity).
  assert (status (gameState (run twelve_berries initialWorld).1) = ended) as Hst
    by (vm_compute; reflexivity).
  assert (conns (run twelve_berries initialWorld).1 !! "s3" = Some (bound_conn "p3"))
    as Hc by (vm_compute; reflexivity).
  assert (fresh_trace (handle IdleTick (run twelve_berries initialWorld).1).1
            after_reset = true) as Hf2 by (vm_compute; reflexivity).
  assert (plain_trace after_reset = true) as Hp2 by (vm_compute; reflexivity).
  split; [exact Hst|]. split; [exact Hc|].
  split; [vm_compute; reflexivity|].
  destruct (idle_reset_strands_plain twelve_berries after_reset "s3"
              (bound_conn "p3") "p3" Hf1 Hp1 Hst Hc eq_refl eq_refl Hf2 Hp2 eq_refl)
    as (_ & _ & _ & _ & _ & _ & Hign & Hrec).
  split; [exact (Hign _ (ignored_collectBerry "s3"))|].
  split; [exact (Hign _ (ignored_joinGame "s3" "p5"))|].
  exact (proj1 (proj2 (Hrec "p6"))).
Defined.

(** ** Names that the roster object inherits *)

Lemma prototype_name_nonempty (k : string) : k ∈ prototype_names → k ≠ ""%string.
Proof.
  intros Hk ->. unfold prototype_names in Hk.
  repeat (apply elem_of_cons in Hk as [Hk|Hk]; [discriminate Hk|]).
  by apply elem_of_nil in Hk.
Qed.

Lemma lookup_prototype_name (w : World) (k : string) :
  k ∈ prototype_names → players (gameState w) !! k = None →
  lookup_player w k = Some Inherited.
Proof.
  intros Hk Hp. unfold lookup_player. by rewrite Hp, bool_decide_eq_true_2.
Qed.

(** X26. A [reconnectPlayer] that names an own property of [Object.prototype]
    (["constructor"], ["toString"], ["__proto__"], ...), no player being
    filed under that name, takes the existing-id branch: the connection is
    bound to the name, the [GameState] and the timers stay as they are, no
    player is created, and the caller and then every session are sent the
    unchanged state.  From then on the guard of the gameplay handlers holds
    for that connection: its [playerUpdate] is broadcast to the other
    sessions under the name, while the [GameState] still does not change. *)
Theorem reconnect_prototype_name
    (w : World) (s : SocketId) (c : Conn) (k u : string) :
  conns w !! s = Some c → connected c = true →
  k ∈ prototype_names → players (gameState w) !! k = None →
  let r := handle (ReconnectPlayer s k u) w in
  gameState r.1 = gameState w
  ∧ conns r.1
    = <[s := {| hasJoined := true; playerId := Some k; connected := true |}]> (conns w)
  ∧ timers r.1 = timers w
  ∧ r.2 = [(ToSocket s, gameStateMsg (gameState w)); (ToAll, gameStateMsg (gameState w))]
  ∧ ∀ pos rot,
      let r' := handle (PlayerUpdate s pos rot) r.1 in
      gameState r'.1 = gameState w
      ∧ r'.2 = [(ToOthers s, playerPositionUpdate k pos rot)].
Proof.
  intros Hc Hon Hk Hp. cbv zeta.
  pose proof (prototype_name_nonempty k Hk) as Hne.
  assert (handle (ReconnectPlayer s k u) w
          = (set_conn s {| hasJoined := true; playerId := Some k; connected := true |}
               (store_isActive k true w),
             [(ToSocket s, gameStateMsg (gameState w));
              (ToAll, gameStateMsg (gameState w))])) as Hr.
  { cbn [handle]. rewrite (on_socket_connected _ _ _ _ Hc Hon).
    unfold reconnectPlayer.
    by rewrite (truthy_Some _ Hne), (lookup_prototype_name _ _ Hk Hp), Hon. }
  rewrite Hr. cbn [fst snd set_conn store_isActive set_inherited gameState conns timers].
  do 4 (split; [done|]).
  intros pos rot.
  set (w1 := set_conn s {| hasJoined := true; playerId := Some k; connected := true |}
               (store_isActive k true w)).
  assert (conns w1 !! s
          = Some {| hasJoined := true; playerId := Some k; connected := true |}) as Hc1
    by apply lookup_insert_eq.
  cbn [handle]. rewrite (on_socket_connected _ _ _ _ Hc1 eq_refl).
  unfold playerUpdate, bound_player. cbn [playerId].
  rewrite (truthy_Some _ Hne), (lookup_prototype_name w1 k Hk Hp).
  done.
Qed.

(** The visitor of the scenario presents ["toString"]. *)
Lemma reconnect_prototype_name_witness :
  let w := (run three_and_a_visitor initialWorld).1 in
  let r := handle (ReconnectPlayer "s4" "toString" "p4") w in
  conns w !! "s4" = Some fresh_conn
  ∧ players (gameState w) !! "toString" = None
  ∧ gameState r.1 = gameState w
  ∧ r.2 = [(ToSocket "s4", gameStateMsg (gameState w)); (ToAll, gameStateMsg (gameState w))].
Proof.
  assert (conns (run three_and_a_visitor initialWorld).1 !! "s4" = Some fresh_conn)
    as Hc by (vm_compute; reflexivity).
  assert (players (gameState (run three_and_a_visitor initialWorld).1) !! "toString"
          = None) as Hp by (vm_compute; reflexivity).
  assert ("toString"%string ∈ prototype_names) as Hk.
  { unfold prototype_names. rewrite !elem_of_cons. do 8 right. by left. }
  split; [exact Hc|]. split; [exact Hp|].
  destruct (reconnect_prototype_name _ "s4" fresh_conn "toString" "p4" Hc eq_refl Hk Hp)
    as (H1 & _ & _ & H4 & _).
  split; [exact H1 | exact H4].
Defined.

Lemma bound_player_prototype_name (c : Conn) (w : World) (k : string) :
  playerId c = Some k → k ∈ prototype_names → players (gameState w) !! k = None →
  bound_player c w = Some (k, Inherited).
Proof.
  intros Hid Hk Hp. unfold bound_player.
  by rewrite Hid, (truthy_Some _ (prototype_name_nonempty k Hk)),
    (lookup_prototype_name _ _ Hk Hp).
Qed.

(** X29. A connection bound to an own property name of [Object.prototype]
    passes the guard of [leaveGame]: the state is broadcast
    unchanged and a leave sweep is scheduled under the name.  When the
    sweep fires it finds the inherited value again: the roster loses
    nothing, the connection is unbound and may join again, and the state is
    broadcast once more. *)
Theorem inherited_name_leave_sweep (w : World) (s : SocketId) (c : Conn) (k : string) :
  conns w !! s = Some c → connected c = true → playerId c = Some k →
  k ∈ prototype_names → players (gameState w) !! k = None →
  let r1 := handle (LeaveGame s) w in
  let r2 := handle (TimerFires (nextTimer w)) r1.1 in
  gameState r1.1 = gameState w
  ∧ conns r1.1 = conns w
  ∧ timers r1.1 = <[nextTimer w := LeaveSweep s k]> (timers w)
  ∧ r1.2 = [(ToAll, gameStateMsg (gameState w))]
  ∧ players (gameState r2.1) = players (gameState w)
  ∧ conns r2.1 !! s
    = Some {| hasJoined := false; playerId := None; connected := true |}
  ∧ r2.2 = [(ToAll, gameStateMsg (gameState r2.1))].
Proof.
  intros Hc Hon Hid Hk Hp. cbv zeta.
  assert (handle (LeaveGame s) w
          = (setTimeout (LeaveSweep s k) (store_isActive k false w),
             [(ToAll, gameStateMsg (gameState w))])) as Hr1.
  { cbn [handle]. rewrite (on_socket_connected _ _ _ _ Hc Hon).
    unfold leaveGame. by rewrite (bound_player_prototype_name c w k Hid Hk Hp). }
  rewrite Hr1.
  cbn [fst snd setTimeout store_isActive set_inherited gameState conns timers
       nextTimer].
  do 4 (split; [done|]).
  set (w1 := setTimeout (LeaveSweep s k) (store_isActive k false w)).
  assert (timers w1 !! nextTimer w = Some (LeaveSweep s k)) as Hk1
    by apply lookup_insert_eq.
  cbn [handle]. unfold fireTimer. rewrite Hk1, (lookup_prototype_name w1 k Hk Hp).
  cbn [fst snd gameState conns clearFired players set_players].
  change (conns w1) with (conns w). change (gameState w1) with (gameState w).
  rewrite lookup_alter_eq, Hc. cbn. rewrite Hon.
  split; [|done]. by apply delete_id.
Qed.

(** X30. Likewise for [disconnect]: the state is broadcast unchanged and a
    disconnect sweep is scheduled under the name; [isActive] having been set
    to false on the inherited object, the sweep takes its removal branch,
    which removes nothing from the roster and broadcasts the state again. *)
Theorem inherited_name_disconnect_sweep
    (w : World) (s : SocketId) (c : Conn) (k : string) :
  conns w !! s = Some c → connected c = true → playerId c = Some k →
  k ∈ prototype_names → players (gameState w) !! k = None →
  let r1 := handle (Disconnect s) w in
  let r2 := handle (TimerFires (nextTimer w)) r1.1 in
  gameState r1.1 = gameState w
  ∧ connected <$> conns r1.1 !! s = Some false
  ∧ timers r1.1 = <[nextTimer w := DisconnectSweep k]> (timers w)
  ∧ r1.2 = [(ToAll, gameStateMsg (gameState w))]
  ∧ gameState r2.1 = gameState w
  ∧ r2.2 = [(ToAll, gameStateMsg (gameState w))].
Proof.
  intros Hc Hon Hid Hk Hp. cbv zeta.
  assert (handle (Disconnect s) w
          = (set_conn s {| hasJoined := hasJoined c; playerId := playerId c;
                           connected := false |}
               (setTimeout (DisconnectSweep k) (store_isActive k false w)),
             [(ToAll, gameStateMsg (gameState w))])) as Hr1.
  { cbn [handle]. rewrite (on_socket_connected _ _ _ _ Hc Hon).
    unfold disconnect. by rewrite (bound_player_prototype_name c w k Hid Hk Hp). }
  rewrite Hr1.
  cbn [fst snd set_conn setTimeout store_isActive set_inherited gameState conns
       timers nextTimer].
  rewrite lookup_insert_eq.
  do 4 (split; [done|]).
  set (w1 := set_conn s {| hasJoined := hasJoined c; playerId := playerId c;
                           connected := false |}
               (setTimeout (DisconnectSweep k) (store_isActive k false w))).
  assert (timers w1 !! nextTimer w = Some (DisconnectSweep k)) as Hk1
    by apply lookup_insert_eq.
  assert (read_isActive w1 k = false) as Hfl.
  { unfold read_isActive, props, w1.
    cbn [set_conn setTimeout store_isActive set_inherited inherited].
    by rewrite lookup_insert_eq. }
  cbn [handle]. unfold fireTimer.
  rewrite Hk1, (lookup_prototype_name w1 k Hk Hp), Hfl. done.
Qed.

Lemma inherited_name_leave_sweep_witness :
  let w := (run visitor_as_toString initialWorld).1 in
  let r1 := handle (LeaveGame "s4") w in
  let r2 := handle (TimerFires (nextTimer w)) r1.1 in
  conns w !! "s4" = Some (bound_conn "toString")
  ∧ players (gameState w) !! "toString" = None
  ∧ r1.2 = [(ToAll, gameStateMsg (gameState w))]
  ∧ conns r2.1 !! "s4"
    = Some {| hasJoined := false; playerId := None; connected := true |}.
Proof.
  assert (conns (run visitor_as_toString initialWorld).1 !! "s4"
          = Some (bound_conn "toString")) as Hc by (vm_compute; reflexivity).
  assert (players (gameState (run visitor_as_toString initialWorld).1) !! "toString"
          = None) as Hp by (vm_compute; reflexivity).
  assert ("toString"%string ∈ prototype_names) as Hk.
  { unfold prototype_names. rewrite !elem_of_cons. do 8 right. by left. }
  split; [exact Hc|]. split; [exact Hp|].
  destruct (inherited_name_leave_sweep _ "s4" (bound_conn "toString") "toString"
              Hc eq_refl eq_refl Hk Hp) as (_ & _ & _ & H4 & _ & H6 & _).
  split; [exact H4 | exact H6].
Defined.

Lemma inherited_name_disconnect_sweep_witness :
  let w := (run visitor_as_toString initialWorld).1 in
  let r1 := handle (Disconnect "s4") w in
  let r2 := handle (TimerFires (nextTimer w)) r1.1 in
  conns w !! "s4" = Some (bound_conn "toString")
  ∧ players (gameState w) !! "toString" = None
  ∧ gameState r2.1 = gameState w
  ∧ r2.2 = [(ToAll, gameStateMsg (gameState w))].
Proof.
  assert (conns (run visitor_as_toString initialWorld).1 !! "s4"
          = Some (bound_conn "toString")) as Hc by (vm_compute; reflexivity).
  assert (players (gameState (run visitor_as_toString initialWorld).1) !! "toString"
          = None) as Hp by (vm_compute; reflexivity).
  assert ("toString"%string ∈ prototype_names) as Hk.
  { unfold prototype_names. rewrite !elem_of_cons. do 8 right. by left. }
  split; [exact Hc|]. split; [exact Hp|].
  destruct (inherited_name_disconnect_sweep _ "s4" (bound_conn "toString") "toString"
              Hc eq_refl eq_refl Hk Hp) as (_ & _ & _ & _ & H5 & H6).
  split; [exact H5 | exact H6].
Defined.

(** ** Handlers that throw *)

Lemma plain_step_does_not_throw (e : Event) (w : World) :
  plain_world w → plain_event e = true → throws e w = false.
Proof.
  intros [Hcs _] He.
  assert (∀ k, k ∉ reserved_names → lookup_player w k ≠ Some InheritedTrue) as Hl.
  { intros k Hk. rewrite (lookup_player_plain w k Hk).
    by destruct (players (gameState w) !! k). }
  assert (∀ s c, conns w !! s = Some c → on_primitive w c = false) as Hb.
  { intros s c Hc. unfold on_primitive.
    destruct (bound_player c w) as [[pid [p| |]]|] eqn:Hbp; try done.
    apply bound_player_inv in Hbp as (Hid & _ & Hlp).
    by destruct (Hl pid (Hcs _ _ _ Hc Hid)). }
  destruct e as [s|s u|s pos rot|s|s|s|s|s|s pid u|k|];
    cbn [plain_event throws] in *; try done;
    destruct (conns w !! s) as [c|] eqn:Hc; try done;
    rewrite ?(Hb s c Hc), ?andb_false_r; try done.
  apply andb_true_iff in He as [He _]. apply bool_decide_eq_true in He.
  specialize (Hl pid He).
  destruct (truthy (Some pid)); [|by rewrite andb_false_r].
  destruct (lookup_player w pid) as [[p| |]|]; try done; by rewrite andb_false_r.
Qed.

Lemma lookup_isActive_true (w : World) :
  players (gameState w) !! "isActive" = None →
  own_isActive (objectPrototype w) = Some true →
  lookup_player w "isActive" = Some InheritedTrue.
Proof.
  intros Hp Ho. unfold lookup_player. rewrite Hp, Ho.
  rewrite bool_decide_eq_false_2.
  - rewrite (bool_decide_eq_false_2 ("isActive"%string = "position"%string)) by done.
    by rewrite (bool_decide_eq_false_2 ("isActive"%string = "rotation"%string)).
  - unfold prototype_names. rewrite !elem_of_cons, elem_of_nil.
    intros H. by repeat destruct H as [H|H].
Qed.

(** X27. As long as the ids in play are such as [uuidv4] makes them (none of
    the reserved names), no handler throws: after any such sequence of
    events from the initial world, any such event is handled to the end. *)
Theorem plain_events_do_not_throw (evs : list Event) (e : Event) :
  plain_trace evs = true → plain_event e = true →
  throws e (run evs initialWorld).1 = false.
Proof.
  intros Hpl He. apply plain_step_does_not_throw; [|done].
  apply run_plain_world; [done|]. split.
  - intros s0 c0 p0 H0. cbn [initialWorld conns] in H0.
    by rewrite lookup_empty in H0.
  - intros k0 t0 p0 H0. cbn [initialWorld timers] in H0.
    by rewrite lookup_empty in H0.
Qed.

Lemma plain_events_do_not_throw_witness :
  plain_trace drop_and_return = true
  ∧ throws (ReconnectPlayer "s4" "p1" "p9") (run drop_and_return initialWorld).1 = false.
Proof.
  assert (plain_trace drop_and_return = true) as Hpl by (vm_compute; reflexivity).
  split; [exact Hpl|].
  refine (plain_events_do_not_throw drop_and_return _ Hpl _).
  vm_compute. reflexivity.
Defined.

(** X28. Two client messages stop the server.  A [reconnectPlayer] naming
    ["__proto__"] finds [Object.prototype] and sets its [isActive] to
    [true]; from then on the name ["isActive"] finds that [true] on the
    roster object.  A [reconnectPlayer] naming ["isActive"] then binds its
    connection and assigns to a property of the primitive, which throws:
    nothing is sent for it, and whatever events follow are not handled. *)
Theorem inherited_flag_stops_server
    (w : World) (s1 s2 : SocketId) (c1 c2 : Conn) (u1 u2 : string) (evs : list Event) :
  conns w !! s1 = Some c1 → connected c1 = true →
  conns w !! s2 = Some c2 → connected c2 = true → s1 ≠ s2 →
  players (gameState w) !! "__proto__" = None →
  players (gameState w) !! "isActive" = None →
  let r := run (ReconnectPlayer s1 "__proto__" u1
                  :: ReconnectPlayer s2 "isActive" u2 :: evs) w in
  gameState r.1 = gameState w
  ∧ timers r.1 = timers w
  ∧ conns r.1
    = <[s2 := {| hasJoined := true; playerId := Some "isActive"; connected := true |}]>
        (<[s1 := {| hasJoined := true; playerId := Some "__proto__"; connected := true |}]>
           (conns w))
  ∧ r.2 = [(ToSocket s1, gameStateMsg (gameState w)); (ToAll, gameStateMsg (gameState w))].
Proof.
  intros Hc1 Hon1 Hc2 Hon2 Hss Hp Hi. cbv zeta.
  assert (lookup_player w "__proto__" = Some Inherited) as Hl1.
  { apply lookup_prototype_name; [|done].
    unfold prototype_names. rewrite !elem_of_cons. do 10 right. by left. }
  assert (handle (ReconnectPlayer s1 "__proto__" u1) w
          = (set_conn s1 {| hasJoined := true; playerId := Some "__proto__";
                            connected := true |}
               (store_isActive "__proto__" true w),
             [(ToSocket s1, gameStateMsg (gameState w));
              (ToAll, gameStateMsg (gameState w))])) as Hr1.
  { cbn [handle]. rewrite (on_socket_connected _ _ _ _ Hc1 Hon1).
    unfold reconnectPlayer. cbn [truthy]. by rewrite Hl1, Hon1. }
  assert (throws (ReconnectPlayer s1 "__proto__" u1) w = false) as Ht1.
  { cbn [throws truthy]. by rewrite Hc1, Hl1, andb_false_r. }
  set (w1 := set_conn s1 {| hasJoined := true; playerId := Some "__proto__";
                            connected := true |}
               (store_isActive "__proto__" true w)) in *.
  assert (conns w1 !! s2 = Some c2) as Hc2'.
  { unfold w1. cbn [set_conn conns]. by rewrite lookup_insert_ne. }
  assert (lookup_player w1 "isActive" = Some InheritedTrue) as Hl2.
  { apply lookup_isActive_true; [done|].
    unfold objectPrototype, props, w1.
    cbn [set_conn store_isActive set_inherited inherited].
    by rewrite lookup_insert_eq. }
  assert (handle (ReconnectPlayer s2 "isActive" u2) w1
          = (set_conn s2 {| hasJoined := true; playerId := Some "isActive";
                            connected := true |} w1, [])) as Hr2.
  { cbn [handle]. rewrite (on_socket_connected _ _ _ _ Hc2' Hon2).
    unfold reconnectPlayer. cbn [truthy]. by rewrite Hl2, Hon2. }
  assert (throws (ReconnectPlayer s2 "isActive" u2) w1 = true) as Ht2.
  { cbn [throws truthy]. by rewrite Hc2', Hl2, Hon2. }
  cbn [run]. rewrite Ht1, Hr1. cbn [fst snd]. rewrite Ht2, Hr2.
  cbn [fst snd app]. done.
Qed.

(** In the three-player scenario: the visitor presents ["__proto__"], a
    fifth connection presents ["isActive"], and the worker's berry that
    follows is not counted. *)
Lemma inherited_flag_stops_server_witness :
  let w := (run (three_and_a_visitor ++ [Connection "s5"]) initialWorld).1 in
  let r := run [ReconnectPlayer "s4" "__proto__" "p4";
                ReconnectPlayer "s5" "isActive" "p5"; CollectBerry "s3"] w in
  conns w !! "s4" = Some fresh_conn ∧ conns w !! "s5" = Some fresh_conn
  ∧ gameState r.1 = gameState w
  ∧ r.2 = [(ToSocket "s4", gameStateMsg (gameState w)); (ToAll, gameStateMsg (gameState w))].
Proof.
  assert (conns (run (three_and_a_visitor ++ [Connection "s5"]) initialWorld).1 !! "s4"
          = Some fresh_conn) as Hc1 by (vm_compute; reflexivity).
  assert (conns (run (three_and_a_visitor ++ [Connection "s5"]) initialWorld).1 !! "s5"
          = Some fresh_conn) as Hc2 by (vm_compute; reflexivity).
  assert (players (gameState (run (three_and_a_visitor ++ [Connection "s5"])
                                initialWorld).1) !! "__proto__" = None) as Hp
    by (vm_compute; reflexivity).
  assert (players (gameState (run (three_and_a_visitor ++ [Connection "s5"])
                                initialWorld).1) !! "isActive" = None) as Hi
    by (vm_compute; reflexivity).
  split; [exact Hc1|]. split; [exact Hc2|].
  destruct (inherited_flag_stops_server _ "s4" "s5" fresh_conn fresh_conn "p4" "p5"
              [CollectBerry "s3"] Hc1 eq_refl Hc2 eq_refl ltac:(discriminate) Hp Hi)
    as (H1 & _ & _ & H4).
  split; [exact H1 | exact H4].
Defined.
